(** * build_image_data.py: sharding, splitting and fan-out of the TFRecord builder

    A shallow embedding of [vae-gan/data/build_image_data.py].  Python
    integers are [Z], Python floats are idealised as exact rationals [Q]
    (rounding of IEEE doubles is not modelled), lists are [list], strings are
    [string].  Exceptions are an explicit [result] type; the file system and
    the log of writer operations are threaded as an explicit [world]. *)

From Stdlib Require Import String Ascii ZArith QArith Qround List Lia Bool.
From Stdlib Require Import DecimalString DecimalPos DecimalN Lqa Permutation.
Import ListNotations.
Open Scope Z_scope.

(** ** Exceptions *)

Inductive exn : Type :=
| AssertionError
| ZeroDivisionError
| ValueError
| IndexError
| IOError
| DecodeError.

Inductive result (A : Type) : Type :=
| Ok (a : A)
| Raise (e : exn).
Arguments Ok {A} a.
Arguments Raise {A} e.

Definition rbind {A B} (r : result A) (k : A -> result B) : result B :=
  match r with
  | Ok a => k a
  | Raise e => Raise e
  end.

Notation "x <- r ;; k" := (rbind r (fun x => k))
  (at level 61, r at next level, right associativity).

(** ** Python and NumPy primitives used by the script *)

Module Py.

(** [a % b] on Python integers: the result has the sign of [b]. *)
Definition mod_ (a b : Z) : result Z :=
  if b =? 0 then Raise ZeroDivisionError else Ok (a mod b).

(** [a / b] under [from __future__ import division]. *)
Definition truediv (a b : Z) : result Q :=
  if b =? 0 then Raise ZeroDivisionError else Ok (inject_Z a / inject_Z b)%Q.

(** [int(x)] on a float, and [ndarray.astype(int)] on each entry:
    truncation toward zero. *)
Definition int_ (x : Q) : Z := Z.quot (Qnum x) (Zpos (Qden x)).

(** [range(n)]. *)
Definition range (n : Z) : list Z :=
  map Z.of_nat (seq 0 (Z.to_nat n)).

(** [l[:n]]. *)
Definition slice_to {A} (l : list A) (n : Z) : list A :=
  let len := Z.of_nat (length l) in
  let stop := if n <? 0 then Z.max 0 (len + n) else Z.min n len in
  firstn (Z.to_nat stop) l.

(** [l[k:]]. *)
Definition slice_from {A} (l : list A) (k : Z) : list A :=
  let len := Z.of_nat (length l) in
  let start := if k <? 0 then Z.max 0 (len + k) else Z.min k len in
  skipn (Z.to_nat start) l.

(** [l[i]]. *)
Definition index {A} (l : list A) (i : Z) : result A :=
  let len := Z.of_nat (length l) in
  let j := if i <? 0 then len + i else i in
  if (0 <=? j) && (j <? len) then
    match nth_error l (Z.to_nat j) with
    | Some x => Ok x
    | None => Raise IndexError
    end
  else Raise IndexError.

Fixpoint replace_nth {A} (l : list A) (n : nat) (v : A) : list A :=
  match l, n with
  | [], _ => []
  | _ :: t, O => v :: t
  | x :: t, S m => x :: replace_nth t m v
  end.

(** [l[i] = v]. *)
Definition setitem {A} (l : list A) (i : Z) (v : A) : result (list A) :=
  let len := Z.of_nat (length l) in
  let j := if i <? 0 then len + i else i in
  if (0 <=? j) && (j <? len) then Ok (replace_nth l (Z.to_nat j) v)
  else Raise IndexError.

(** [[l[i] for i in idx]]. *)
Fixpoint gather {A} (l : list A) (idx : list Z) : result (list A) :=
  match idx with
  | [] => Ok []
  | i :: rest =>
      x <- index l i ;;
      xs <- gather l rest ;;
      Ok (x :: xs)
  end.

End Py.

Module Np.

(** [y[-1] = v] on a non-empty array. *)
Fixpoint set_last {A} (y : list A) (v : A) : list A :=
  match y with
  | [] => []
  | [_] => [v]
  | x :: t => x :: set_last t v
  end.

(** [np.linspace(start, stop, num)] with the default [endpoint=True]. *)
Definition linspace (start stop num : Z) : result (list Q) :=
  if num <? 0 then Raise ValueError
  else
    let div := num - 1 in
    let delta := (inject_Z stop - inject_Z start)%Q in
    let y := map inject_Z (Py.range num) in
    let y :=
      if 0 <? div then
        let step := (delta / inject_Z div)%Q in
        if Qeq_bool step 0
        then map (fun yi => (yi / inject_Z div * delta)%Q) y
        else map (fun yi => (yi * step)%Q) y
      else map (fun yi => (yi * delta)%Q) y in
    let y := map (fun yi => (yi + inject_Z start)%Q) y in
    Ok (if 1 <? num then set_last y (inject_Z stop) else y).

(** [a.astype(int)]. *)
Definition astype_int (a : list Q) : list Z := map Py.int_ a.

(** [np.arange(lo, hi, dtype=int)]. *)
Definition arange (lo hi : Z) : list Z :=
  map (fun i => lo + Z.of_nat i) (seq 0 (Z.to_nat (hi - lo))).

End Np.

(** ** The batch partitioner of [_process_image_files] *)

(** [for i in range(len(spacing) - 1): ranges.append([spacing[i], spacing[i + 1]])]. *)
Fixpoint consecutive (spacing : list Z) : list (Z * Z) :=
  match spacing with
  | a :: (b :: _) as t => (a, b) :: consecutive t
  | _ => []
  end.

(** [spacing = np.linspace(0, len(filenames), FLAGS.num_threads + 1).astype(np.int)]. *)
Definition spacing (len : nat) (num_threads : Z) : result (list Z) :=
  y <- Np.linspace 0 (Z.of_nat len) (num_threads + 1) ;;
  Ok (Np.astype_int y).

Definition batch_ranges (len : nat) (num_threads : Z) : result (list (Z * Z)) :=
  sp <- spacing len num_threads ;;
  Ok (consecutive sp).

(** ** Vocabulary for partitions of an index interval *)

(** [rs] is a chain of half-open ranges from [a] to [b]: each range starts
    where the previous one ends, and no range runs backwards. *)
Fixpoint chained (a b : Z) (rs : list (Z * Z)) : Prop :=
  match rs with
  | [] => a = b
  | (lo, hi) :: t => lo = a /\ lo <= hi /\ chained hi b t
  end.

Definition in_range (k : Z) (r : Z * Z) : bool :=
  (fst r <=? k) && (k <? snd r).

(** Number of ranges of [rs] that contain the index [k]. *)
Definition cover_count (k : Z) (rs : list (Z * Z)) : nat :=
  length (filter (in_range k) rs).

Definition expected_count (a b k : Z) : nat :=
  if (a <=? k) && (k <? b) then 1%nat else 0%nat.

(** ** Strings: [%]-formatting and [os.path] *)

Module Str.

(** Decimal digits of a non-negative integer. *)
Definition decimal (n : Z) : string :=
  NilZero.string_of_uint (N.to_uint (Z.to_N n)).

Fixpoint zeros (n : nat) : string :=
  match n with
  | O => EmptyString
  | S m => String "0"%char (zeros m)
  end.

Definition zfill (width : nat) (digits : string) : string :=
  (zeros (width - String.length digits) ++ digits)%string.

Definition sign (n : Z) : string :=
  if n <? 0 then "-"%string else EmptyString.

(** ['%.5d' % n]: a precision of 5 pads the digits, not counting the sign. *)
Definition percent_dot5d (n : Z) : string :=
  (sign n ++ zfill 5 (decimal (Z.abs n)))%string.

(** Format specification [{n:05d}] as the spec writes it: zero padding to
    a total width of 5, the sign included in the width. *)
Definition spec_05d (n : Z) : string :=
  (sign n ++ zfill (5 - String.length (sign n)) (decimal (Z.abs n)))%string.

(** [c.upper()] on an ASCII character. *)
Definition upper_char (c : ascii) : ascii :=
  let n := nat_of_ascii c in
  if ((97 <=? n) && (n <=? 122))%nat then ascii_of_nat (n - 32) else c.

(** [s.upper()]. *)
Fixpoint upper (s : string) : string :=
  match s with
  | EmptyString => EmptyString
  | String c t => String (upper_char c) (upper t)
  end.

Definition is_slash (c : ascii) : bool := Ascii.eqb c "/"%char.

(** The text after the last ['/'] of [p], if [p] has one. *)
Fixpoint after_last_slash (p : string) : option string :=
  match p with
  | EmptyString => None
  | String c t =>
      match after_last_slash t with
      | Some s => Some s
      | None => if is_slash c then Some t else None
      end
  end.

(** [os.path.basename(p)]: [p[p.rfind('/') + 1:]]. *)
Definition basename (p : string) : string :=
  match after_last_slash p with
  | Some s => s
  | None => p
  end.

Fixpoint endswith_slash (p : string) : bool :=
  match p with
  | EmptyString => false
  | String c EmptyString => is_slash c
  | String _ t => endswith_slash t
  end.

Definition startswith_slash (p : string) : bool :=
  match p with
  | String c _ => is_slash c
  | EmptyString => false
  end.

(** [os.path.join(a, b)] of [posixpath]. *)
Definition path_join (a b : string) : string :=
  if startswith_slash b then b
  else if (String.length a =? 0)%nat || endswith_slash a then (a ++ b)%string
  else (a ++ "/" ++ b)%string.

Fixpoint has_slash (p : string) : bool :=
  match p with
  | EmptyString => false
  | String c t => is_slash c || has_slash t
  end.

End Str.

(** ** Records *)

(** The [tf.train.Example] built for one image, one field per feature key. *)
Record example : Type := {
  image_height : Z;
  image_width : Z;
  image_colorspace : string;
  image_channels : Z;
  image_format : string;
  image_filename : string;
  image_encoded : string
}.

Definition colorspace_of (channels : Z) : string :=
  if channels =? 4 then "RGBA"
  else if channels =? 3 then "RGB"
  else if channels =? 1 then "MONO"
  else "unknown".

Definition _convert_to_example (filename image_buffer : string)
    (height width channels : Z) : example :=
  let colorspace := colorspace_of channels in
  let image_format := "PNG"%string in
  {| image_height := height;
     image_width := width;
     image_colorspace := colorspace;
     image_channels := channels;
     image_format := image_format;
     image_filename := Str.basename filename;
     image_encoded := image_buffer |}.

(** The command-line flags ([FLAGS]). *)
Record flags : Type := {
  data_directory : string;
  output_directory : string;
  num_shards : Z;
  num_threads : Z;
  validation_size : Q
}.

(** What the program does to the outside: globbing a pattern and the three
    operations of a [TFRecordWriter]. *)
Inductive event : Type :=
| Glob (pattern : string)
| OpenWriter (path : string)
| WriteRecord (path : string) (e : example)
| CloseWriter (path : string).

(** ** The program *)

Section Program.

(** External collaborators.  [gfile_glob] is [tf.gfile.Glob], [gfile_read]
    is [tf.gfile.FastGFile(filename, 'rb').read()], [decode_png] is
    [ImageCoder.decode_png] followed by reading [image.shape].  [rng] is
    the state of the module-level generator of [random]; [rng_seed] is
    [random.seed] and [rng_below] draws the index [j] with which
    [random.shuffle] swaps position [i] (the draw is made below [i + 1]). *)
Variable gfile_glob : string -> list string.
Variable gfile_read : string -> result string.
Variable decode_png : string -> result (Z * Z * Z).
Variable rng : Type.
Variable rng_seed : Z -> rng.
Variable rng_below : rng -> Z -> Z * rng.

Variable FLAGS : flags.

(** The state the program runs in: the generator of [random] and the
    operations performed so far, oldest first. *)
Record world : Type := {
  rng_state : rng;
  trace : list event
}.

(** Computations that read and change the world and may raise. *)
Definition M (A : Type) : Type := world -> result A * world.

Definition ret {A} (a : A) : M A := fun w => (Ok a, w).

Definition raise {A} (e : exn) : M A := fun w => (Raise e, w).

Definition bind {A B} (m : M A) (k : A -> M B) : M B :=
  fun w =>
    match m w with
    | (Ok a, w') => k a w'
    | (Raise e, w') => (Raise e, w')
    end.

Definition lift {A} (r : result A) : M A := fun w => (r, w).

Definition emit (e : event) : M unit :=
  fun w => (Ok tt, {| rng_state := rng_state w; trace := trace w ++ [e] |}).

Notation "x <~ m ;; k" := (bind m (fun x => k))
  (at level 61, m at next level, right associativity).

(** *** [_process_image] *)

Definition _process_image (filename : string)
  : result (string * Z * Z * Z) :=
  image_data <- gfile_read filename ;;
  shape <- decode_png image_data ;;
  let '(height, width, channels) := shape in
  Ok (image_data, height, width, channels).

(** *** [_process_image_files_batch] *)

(** The loop [for i in files_in_shard], with the running [counter]. *)
Fixpoint write_files (output_file : string) (filenames : list string)
    (files_in_shard : list Z) (counter : Z) : M Z :=
  match files_in_shard with
  | [] => ret counter
  | i :: rest =>
      filename <~ lift (Py.index filenames i) ;;
      img <~ lift (_process_image filename) ;;
      let '(image_buffer, height, width, channels) := img in
      let example :=
        _convert_to_example filename image_buffer height width channels in
      _ <~ emit (WriteRecord output_file example) ;;
      write_files output_file filenames rest (counter + 1)
  end.

Definition shard_filename (name : string) (shard num_shards : Z) : string :=
  (name ++ "-" ++ Str.percent_dot5d shard ++ "-of-"
        ++ Str.percent_dot5d num_shards)%string.

(** The loop [for s in range(num_shards_per_batch)]. *)
Fixpoint write_shards (thread_index num_shards_per_batch : Z)
    (shard_ranges : list Z) (name : string) (filenames : list string)
    (num_shards : Z) (ss : list Z) (counter : Z) : M Z :=
  match ss with
  | [] => ret counter
  | s :: rest =>
      let shard := thread_index * num_shards_per_batch + s in
      let output_filename := shard_filename name shard num_shards in
      let output_file :=
        Str.path_join (output_directory FLAGS) output_filename in
      _ <~ emit (OpenWriter output_file) ;;
      lo <~ lift (Py.index shard_ranges s) ;;
      hi <~ lift (Py.index shard_ranges (s + 1)) ;;
      let files_in_shard := Np.arange lo hi in
      counter <~ write_files output_file filenames files_in_shard counter ;;
      _ <~ emit (CloseWriter output_file) ;;
      write_shards thread_index num_shards_per_batch shard_ranges name
        filenames num_shards rest counter
  end.

(** The shard boundaries a worker computes for its own range. *)
Definition shard_spacing (range : Z * Z) (num_shards_per_batch : Z)
  : result (list Z) :=
  y <- Np.linspace (fst range) (snd range) (num_shards_per_batch + 1) ;;
  Ok (Np.astype_int y).

Definition shards_per_batch (num_shards num_threads : Z) : result Z :=
  r <- Py.mod_ num_shards num_threads ;;
  if negb (r =? 0) then Raise AssertionError
  else
    q <- Py.truediv num_shards num_threads ;;
    Ok (Py.int_ q).

Definition _process_image_files_batch (thread_index : Z)
    (ranges : list (Z * Z)) (name : string) (filenames : list string)
    (num_shards : Z) : M unit :=
  let num_threads := Z.of_nat (length ranges) in
  num_shards_per_batch <~ lift (shards_per_batch num_shards num_threads) ;;
  range <~ lift (Py.index ranges thread_index) ;;
  shard_ranges <~ lift (shard_spacing range num_shards_per_batch) ;;
  _ <~ write_shards thread_index num_shards_per_batch shard_ranges name
         filenames num_shards (Py.range num_shards_per_batch) 0 ;;
  ret tt.

(** *** [_process_image_files] *)

(** [threading.Thread(target=..., args=...)] started and later joined by
    [coord.join(threads)]: an exception that escapes the target ends that
    thread only.  The coordinator is never handed to the workers, so
    [join] has no exception to re-raise and returns once every thread has
    ended. *)
Definition run_thread {A} (target : M A) : M unit :=
  fun w => (Ok tt, snd (target w)).

(** The workers of one data set.  They are run one after the other, in
    the order they are started: one of the schedules of the threads.  Each
    worker opens only shard files of its own, so the records of every file
    are the same in every schedule. *)
Fixpoint run_threads (thread_indices : list Z) (ranges : list (Z * Z))
    (name : string) (filenames : list string) (num_shards : Z) : M unit :=
  match thread_indices with
  | [] => ret tt
  | thread_index :: rest =>
      _ <~ run_thread (_process_image_files_batch thread_index ranges name
                         filenames num_shards) ;;
      run_threads rest ranges name filenames num_shards
  end.

Definition _process_image_files (name : string) (filenames : list string)
    (num_shards : Z) : M unit :=
  ranges <~ lift (batch_ranges (length filenames) (num_threads FLAGS)) ;;
  run_threads (Py.range (Z.of_nat (length ranges))) ranges name filenames
    num_shards.

(** *** [_find_image_files] *)

Definition gfile_Glob (pattern : string) : M (list string) :=
  _ <~ emit (Glob pattern) ;;
  ret (gfile_glob pattern).

(** The loop [for ext in file_extensions]. *)
Fixpoint glob_extensions (data_dir : string) (file_extensions : list string)
    (filenames : list string) : M (list string) :=
  match file_extensions with
  | [] => ret filenames
  | ext :: rest =>
      let file_path := (data_dir ++ "/*" ++ ext)%string in
      matching_files <~ gfile_Glob file_path ;;
      glob_extensions data_dir rest (filenames ++ matching_files)
  end.

(** [random.seed(a)]. *)
Definition random_seed (a : Z) : M unit :=
  fun w => (Ok tt, {| rng_state := rng_seed a; trace := trace w |}).

Definition random_below (n : Z) : M Z :=
  fun w =>
    let (j, s) := rng_below (rng_state w) n in
    (Ok j, {| rng_state := s; trace := trace w |}).

(** [x[i], x[j] = x[j], x[i]]. *)
Definition swap (x : list Z) (i j : Z) : result (list Z) :=
  xj <- Py.index x j ;;
  xi <- Py.index x i ;;
  x <- Py.setitem x i xj ;;
  Py.setitem x j xi.

(** The loop of [random.shuffle] over the positions [is_]. *)
Fixpoint shuffle_loop (is_ : list Z) (x : list Z) : M (list Z) :=
  match is_ with
  | [] => ret x
  | i :: rest =>
      j <~ random_below (i + 1) ;;
      x <~ lift (swap x i j) ;;
      shuffle_loop rest x
  end.

(** [random.shuffle(x)]: [for i in reversed(range(1, len(x)))]. *)
Definition random_shuffle (x : list Z) : M (list Z) :=
  let positions := map (fun i => 1 + i) (Py.range (Z.of_nat (length x) - 1)) in
  shuffle_loop (rev positions) x.

(** [random.seed(12345)] followed by [random.shuffle(shuffled_index)]. *)
Definition seeded_shuffle (shuffled_index : list Z) : M (list Z) :=
  _ <~ random_seed 12345 ;;
  random_shuffle shuffled_index.

Definition _find_image_files (data_dir : string) : M (list string) :=
  let file_extensions := [".png"%string] in
  let file_extensions := file_extensions ++ map Str.upper file_extensions in
  filenames <~ glob_extensions data_dir file_extensions [] ;;
  let shuffled_index := Py.range (Z.of_nat (length filenames)) in
  shuffled_index <~ seeded_shuffle shuffled_index ;;
  lift (Py.gather filenames shuffled_index).

(** *** [_process_datasets] *)

Definition num_train_files (filenames : list string) : Z :=
  Py.int_ (inject_Z (Z.of_nat (length filenames))
           * (1 - validation_size FLAGS))%Q.

Definition num_validation_files (filenames : list string) : Z :=
  Z.of_nat (length filenames) - num_train_files filenames.

(** The data sets handed to [_process_image_files], in order: each is
    guarded by the test that its size is not zero. *)
Definition datasets (filenames : list string)
  : list (string * list string) :=
  (if negb (num_train_files filenames =? 0)
   then [("train"%string,
          Py.slice_to filenames (num_train_files filenames))]
   else [])
  ++
  (if negb (num_validation_files filenames =? 0)
   then [("validation"%string,
          Py.slice_from filenames (- num_validation_files filenames))]
   else []).

Fixpoint process_each (ds : list (string * list string)) (num_shards : Z)
  : M unit :=
  match ds with
  | [] => ret tt
  | (name, files) :: rest =>
      _ <~ _process_image_files name files num_shards ;;
      process_each rest num_shards
  end.

Definition _process_datasets (directory : string) (num_shards : Z)
  : M unit :=
  filenames <~ _find_image_files directory ;;
  process_each (datasets filenames) num_shards.

(** *** [main] *)

Definition main : M unit :=
  r <~ lift (Py.mod_ (num_shards FLAGS) (num_threads FLAGS)) ;;
  if negb (r =? 0) then raise AssertionError
  else _process_datasets (data_directory FLAGS) (num_shards FLAGS).

End Program.

Arguments rng_state {rng} w.
Arguments trace {rng} w.

(** [sys.exit(main(argv))] in [tf.app.run]: status 0 when [main] returns,
    non-zero when an exception escapes it. *)
Definition exit_status (r : result unit) : Z :=
  match r with
  | Ok _ => 0
  | Raise _ => 1
  end.

(** ** Reading a trace *)


(** The writers opened in a trace, oldest first. *)
Fixpoint opened (tr : list event) : list string :=
  match tr with
  | [] => []
  | OpenWriter p :: rest => p :: opened rest
  | _ :: rest => opened rest
  end.

(** The writers closed in a trace, oldest first. *)
Fixpoint closed (tr : list event) : list string :=
  match tr with
  | [] => []
  | CloseWriter p :: rest => p :: closed rest
  | _ :: rest => closed rest
  end.

(** The records written to [path] in a trace, oldest first. *)
Fixpoint records_of (path : string) (tr : list event) : list example :=
  match tr with
  | [] => []
  | WriteRecord p e :: rest =>
      if String.eqb p path then e :: records_of path rest
      else records_of path rest
  | _ :: rest => records_of path rest
  end.

(** Every record written in a trace, oldest first. *)
Fixpoint written (tr : list event) : list example :=
  match tr with
  | [] => []
  | WriteRecord _ e :: rest => e :: written rest
  | _ :: rest => written rest
  end.

(** The patterns globbed in a trace. *)
Fixpoint globbed (tr : list event) : list string :=
  match tr with
  | [] => []
  | Glob p :: rest => p :: globbed rest
  | _ :: rest => globbed rest
  end.

(** ** Shard ranges *)

(** The half-open range of files of the local shard [s], read off the
    boundaries as the loop of the worker reads them:
    [shard_ranges[s]] and [shard_ranges[s + 1]]. *)
Definition shard_range (shard_ranges : list Z) (s : Z) : result (Z * Z) :=
  lo <- Py.index shard_ranges s ;;
  hi <- Py.index shard_ranges (s + 1) ;;
  Ok (lo, hi).

Fixpoint collect {A B} (f : A -> result B) (l : list A) : result (list B) :=
  match l with
  | [] => Ok []
  | x :: rest =>
      y <- f x ;;
      ys <- collect f rest ;;
      Ok (y :: ys)
  end.

(** The shard ranges of the worker [thread_index], in the order of its loop. *)
Definition worker_shard_ranges (ranges : list (Z * Z)) (num_shards : Z)
    (thread_index : Z) : result (list (Z * Z)) :=
  let num_threads := Z.of_nat (length ranges) in
  num_shards_per_batch <- shards_per_batch num_shards num_threads ;;
  range <- Py.index ranges thread_index ;;
  shard_ranges <- shard_spacing range num_shards_per_batch ;;
  collect (shard_range shard_ranges) (Py.range num_shards_per_batch).


(** The files with index in [[lo, hi)]. *)
Definition files_between {A} (filenames : list A) (lo hi : Z) : list A :=
  firstn (Z.to_nat (hi - lo)) (skipn (Z.to_nat lo) filenames).

(** ** Rounding, as the spec words the boundary rule *)


(** ** [_is_png] *)

(** [sub in s] on strings. *)
Fixpoint contains (sub s : string) : bool :=
  String.prefix sub s ||
  match s with
  | EmptyString => false
  | String _ t => contains sub t
  end.

Definition _is_png (filename : string) : bool := contains ".png" filename.

(** ** What a worker is expected to do *)

(** The name of a shard file as the spec writes it:
    [{split_name}-{shard_index:05d}-of-{num_shards:05d}]. *)
Definition spec_shard_name (split_name : string) (shard_index num_shards : Z)
  : string :=
  (split_name ++ "-" ++ Str.spec_05d shard_index ++ "-of-"
              ++ Str.spec_05d num_shards)%string.

(** The record of a file whose content and decoded shape are [img filename]. *)
Definition record_of (img : string -> string * Z * Z * Z) (filename : string)
  : example :=
  let '(image_buffer, height, width, channels) := img filename in
  _convert_to_example filename image_buffer height width channels.

(** One shard file from start to end: opened, one record appended after
    the other, closed. *)
Definition shard_events (path : string) (records : list example)
  : list event :=
  OpenWriter path :: map (WriteRecord path) records ++ [CloseWriter path].

(** The events of a worker that writes the shard ranges [srs], numbered
    from [0], of the files [filenames] into [dir]. *)
Definition worker_events (dir : string) (name : string)
    (thread_index shards_per_worker num_shards : Z)
    (img : string -> string * Z * Z * Z) (filenames : list string)
    (srs : list (Z * Z)) : list event :=
  concat
    (map (fun '(local_shard_index, (lo, hi)) =>
            let shard_index :=
              thread_index * shards_per_worker + local_shard_index in
            shard_events
              (Str.path_join dir (spec_shard_name name shard_index num_shards))
              (map (record_of img) (files_between filenames lo hi)))
       (combine (Py.range (Z.of_nat (length srs))) srs)).

(** What a worker is started with: a shard count of at least 1 that the
    number of workers divides, an index among the ranges, and ranges that lie
    inside the file list. *)
Definition well_started (filenames : list string) (thread_index : Z)
    (ranges : list (Z * Z)) (num_shards : Z) : Prop :=
  1 <= num_shards /\
  Py.mod_ num_shards (Z.of_nat (length ranges)) = Ok 0 /\
  0 <= thread_index < Z.of_nat (length ranges) /\
  Forall (fun r => 0 <= fst r /\ fst r <= snd r /\
                   snd r <= Z.of_nat (length filenames)) ranges.

(** ** A small concrete environment

    Collaborators to run the program on: a directory [d] whose listing is
    given, files whose content is their own path, a decoder that rejects the
    files named in [bad], and a generator that always draws the last
    position, so that the shuffle leaves the order as it is. *)

Module Sample.

Definition glob (files : list string) (pattern : string) : list string :=
  if String.eqb pattern "d/*.png" then files else [].

Definition read (filename : string) : result string := Ok filename.

Definition decode (bad : list string) (image_data : string)
  : result (Z * Z * Z) :=
  if existsb (String.eqb image_data) bad then Raise DecodeError
  else Ok (32, 32, 3).

Definition seed (a : Z) : unit := tt.

Definition below (s : unit) (n : Z) : Z * unit := (n - 1, tt).

Definition start : world unit := {| rng_state := tt; trace := [] |}.

Definition flags_of (shards threads : Z) (v : Q) : flags :=
  {| data_directory := "d";
     output_directory := "";
     num_shards := shards;
     num_threads := threads;
     validation_size := v |}.

(** The program on the files [files], of which [bad] do not decode. *)
Definition run (files bad : list string) (F : flags)
  : result unit * world unit :=
  main (glob files) read (decode bad) unit seed below F start.

End Sample.

(** * Properties *)

(** ** Arithmetic of [int] and [linspace] *)

Lemma int_floor (q : Q) : (0 <= q)%Q -> Py.int_ q = Qfloor q.
Proof.
  destruct q as [n d]; unfold Qle, Py.int_; simpl; intros H.
  apply Z.quot_div_nonneg; lia.
Qed.

Lemma int_inject_Z (z : Z) : Py.int_ (inject_Z z) = z.
Proof. unfold Py.int_; simpl. apply Z.quot_1_r. Qed.

Lemma step_point (a b n i : Z) :
  0 < n ->
  (inject_Z i * ((inject_Z b - inject_Z a) / inject_Z n) + inject_Z a
   == (a * n + i * (b - a)) # Z.to_pos n)%Q.
Proof.
  intros Hn. destruct n as [|p|p]; try lia.
  unfold Qeq, Qdiv, Qmult, Qplus, Qminus, Qopp, Qinv, inject_Z; simpl.
  lia.
Qed.

Lemma step_point_zero (a b n i : Z) :
  0 < n ->
  (inject_Z i / inject_Z n * (inject_Z b - inject_Z a) + inject_Z a
   == (a * n + i * (b - a)) # Z.to_pos n)%Q.
Proof.
  intros Hn. destruct n as [|p|p]; try lia.
  unfold Qeq, Qdiv, Qmult, Qplus, Qminus, Qopp, Qinv, inject_Z; simpl.
  lia.
Qed.

Lemma int_point (a b n i : Z) (q : Q) :
  0 < n -> 0 <= a -> a <= b -> 0 <= i ->
  (q == (a * n + i * (b - a)) # Z.to_pos n)%Q ->
  Py.int_ q = a + (i * (b - a)) / n.
Proof.
  intros Hn Ha Hab Hi E.
  assert (Hq : (0 <= q)%Q).
  { rewrite E. unfold Qle; simpl. nia. }
  rewrite (int_floor q Hq), E. simpl.
  rewrite Z2Pos.id by lia.
  rewrite Z.div_add_l by lia. reflexivity.
Qed.

Lemma set_last_app {A} (l : list A) (x v : A) :
  Np.set_last (l ++ [x]) v = l ++ [v].
Proof.
  induction l as [|y l IH]; [reflexivity|].
  simpl. rewrite IH. destruct l; reflexivity.
Qed.

Lemma range_succ (n : Z) :
  0 <= n -> Py.range (n + 1) = Py.range n ++ [n].
Proof.
  intros Hn. unfold Py.range.
  replace (Z.to_nat (n + 1)) with (S (Z.to_nat n)) by lia.
  rewrite seq_S, map_app. simpl. rewrite Z2Nat.id by lia. reflexivity.
Qed.

Lemma in_range_bounds (n i : Z) : In i (Py.range n) -> 0 <= i < n.
Proof.
  unfold Py.range. rewrite in_map_iff. intros [k [<- Hk]].
  apply in_seq in Hk. lia.
Qed.

Lemma length_range (n : Z) : length (Py.range n) = Z.to_nat n.
Proof. unfold Py.range. now rewrite length_map, length_seq. Qed.

(** The boundaries computed by [linspace(a, b, n + 1).astype(int)], in
    closed form. *)
Lemma linspace_int (a b n : Z) :
  0 < n -> 0 <= a -> a <= b ->
  exists y, Np.linspace a b (n + 1) = Ok y /\
    Np.astype_int y = map (fun i => a + (i * (b - a)) / n) (Py.range (n + 1)).
Proof.
  intros Hn Ha Hab. unfold Np.linspace.
  replace (n + 1 - 1) with n by lia.
  destruct (Z.ltb_spec (n + 1) 0) as [?|_]; [lia|].
  destruct (Z.ltb_spec 0 n) as [_|?]; [|lia].
  destruct (Z.ltb_spec 1 (n + 1)) as [_|?]; [|lia].
  eexists; split; [reflexivity|].
  rewrite range_succ by lia.
  assert (Hb : b = a + n * (b - a) / n).
  { rewrite Z.mul_comm, Z.div_mul by lia. lia. }
  destruct (Qeq_bool _ 0);
    rewrite !map_app; simpl; rewrite set_last_app;
    unfold Np.astype_int; rewrite map_app; simpl;
    rewrite int_inject_Z, <- Hb; f_equal;
    rewrite !map_map; apply map_ext_in; intros i Hi;
    apply in_range_bounds in Hi.
  - apply int_point; try lia. now apply step_point_zero.
  - apply int_point; try lia. now apply step_point.
Qed.

(** ** Chains of ranges *)

Lemma length_consecutive (l : list Z) :
  length (consecutive l) = pred (length l).
Proof.
  induction l as [|a [|b t] IH]; try reflexivity.
  change (consecutive (a :: b :: t)) with ((a, b) :: consecutive (b :: t)).
  change (length ((a, b) :: consecutive (b :: t)))
    with (S (length (consecutive (b :: t)))).
  rewrite IH. reflexivity.
Qed.

Lemma consecutive_seq_chained (f : nat -> Z) :
  (forall i, f i <= f (S i)) ->
  forall m k,
    chained (f k) (f (k + m)%nat) (consecutive (map f (seq k (S m)))).
Proof.
  intros Hf m; induction m as [|m IH]; intros k.
  - simpl. now rewrite Nat.add_0_r.
  - change (seq k (S (S m))) with (k :: S k :: seq (S (S k)) m).
    change (map f (k :: S k :: seq (S (S k)) m))
      with (f k :: map f (seq (S k) (S m))).
    change (consecutive (f k :: map f (seq (S k) (S m))))
      with ((f k, f (S k)) :: consecutive (map f (seq (S k) (S m)))).
    simpl chained. repeat split; [apply Hf|].
    replace (k + S m)%nat with (S k + m)%nat by lia. apply IH.
Qed.

Lemma chained_le (rs : list (Z * Z)) :
  forall a b, chained a b rs -> a <= b.
Proof.
  induction rs as [|[lo hi] t IH]; simpl; intros a b H.
  - lia.
  - destruct H as (-> & Hle & Ht). apply IH in Ht. lia.
Qed.


Lemma chained_within (rs : list (Z * Z)) :
  forall a b, chained a b rs ->
    Forall (fun r => a <= fst r /\ fst r <= snd r /\ snd r <= b) rs.
Proof.
  induction rs as [|[lo hi] t IH]; simpl; intros a b H; constructor.
  - destruct H as (-> & Hle & Ht). apply chained_le in Ht. simpl. lia.
  - destruct H as (-> & Hle & Ht). specialize (IH _ _ Ht).
    eapply Forall_impl; [|exact IH]. simpl. intros r Hr. lia.
Qed.

(** In a chain, an earlier range ends before a later one starts. *)
Lemma chained_ordered (rs : list (Z * Z)) :
  forall a b, chained a b rs ->
    ForallOrdPairs (fun r s => snd r <= fst s) rs.
Proof.
  induction rs as [|[lo hi] t IH]; simpl; intros a b H; constructor.
  - destruct H as (-> & Hle & Ht). apply chained_within in Ht.
    eapply Forall_impl; [|exact Ht]. simpl. intros r Hr. lia.
  - destruct H as (_ & _ & Ht). eauto.
Qed.

Lemma chained_last (rs : list (Z * Z)) :
  forall a b d, chained a b rs -> rs <> [] -> snd (last rs d) = b.
Proof.
  induction rs as [|[lo hi] t IH]; intros a b d H Hne; [congruence|].
  destruct H as (-> & Hle & Ht). destruct t as [|r t'].
  - simpl in *. lia.
  - change (last ((a, hi) :: r :: t') d) with (last (r :: t') d).
    eapply IH; [exact Ht|discriminate].
Qed.

(** A chain from [a] to [b] holds every index of [[a, b)] once and no
    other index. *)
Lemma chained_cover (rs : list (Z * Z)) :
  forall a b k, chained a b rs -> cover_count k rs = expected_count a b k.
Proof.
  unfold cover_count, expected_count.
  induction rs as [|[lo hi] t IH]; simpl; intros a b k H.
  - subst. destruct (Z.leb_spec b k), (Z.ltb_spec k b); simpl; lia.
  - destruct H as (-> & Hle & Ht). pose proof (chained_le _ _ _ Ht) as Hb.
    specialize (IH _ _ k Ht). unfold in_range at 1. simpl fst; simpl snd.
    destruct (Z.leb_spec a k), (Z.ltb_spec k hi); simpl;
      rewrite IH;
      destruct (Z.leb_spec hi k), (Z.ltb_spec k b); simpl; lia.
Qed.

Lemma interp_mono (a b n i : Z) :
  0 < n -> a <= b -> 0 <= i ->
  a + (i * (b - a)) / n <= a + ((i + 1) * (b - a)) / n.
Proof.
  intros Hn Hab Hi. apply Z.add_le_mono_l, Z.div_le_mono; nia.
Qed.

(** The ranges between the interpolated boundaries form a chain from [a]
    to [b]. *)
Lemma interp_chained (a b n : Z) :
  0 < n -> a <= b ->
  chained a b
    (consecutive (map (fun i => a + (i * (b - a)) / n) (Py.range (n + 1)))).
Proof.
  intros Hn Hab. unfold Py.range. rewrite map_map.
  replace (Z.to_nat (n + 1)) with (S (Z.to_nat n)) by lia.
  pose (f := fun i : nat => a + (Z.of_nat i * (b - a)) / n).
  assert (Hf : forall i, f i <= f (S i)).
  { intros i. unfold f. rewrite Nat2Z.inj_succ, <- Z.add_1_r.
    apply interp_mono; lia. }
  pose proof (consecutive_seq_chained f Hf (Z.to_nat n) 0%nat) as H.
  unfold f in H at 1 2. simpl in H.
  rewrite Z2Nat.id in H by lia.
  rewrite Z.div_0_l, Z.add_0_r in H by lia.
  rewrite (Z.mul_comm n), Z.div_mul in H by lia.
  replace (a + (b - a)) with b in H by lia. exact H.
Qed.


Lemma spacing_closed_form (L : nat) (T : Z) :
  1 <= T ->
  spacing L T
  = Ok (map (fun i => 0 + (i * (Z.of_nat L - 0)) / T) (Py.range (T + 1))).
Proof.
  intros HT. unfold spacing.
  destruct (linspace_int 0 (Z.of_nat L) T) as (y & Hy & Hint); try lia.
  rewrite Hy. simpl. now rewrite Hint.
Qed.

(** ** The batch partitioner *)

(** The ranges of the batch partitioner: one per worker, chained from [0]
    to the number of files. *)
Lemma batch_ranges_chain (L : nat) (T : Z) :
  1 <= T ->
  exists rs,
    batch_ranges L T = Ok rs /\
    Z.of_nat (length rs) = T /\
    chained 0 (Z.of_nat L) rs.
Proof.
  intros HT. unfold batch_ranges. rewrite spacing_closed_form by exact HT.
  unfold rbind. eexists. split; [reflexivity|]. split.
  - rewrite length_consecutive, length_map, length_range. lia.
  - apply interp_chained; lia.
Qed.

(** C1.  For a list of any length [L] and any worker count [T >= 1] the
    batch partitioner returns [T] ranges that form a chain from [0] to [L]:
    every range starts where the previous one ends (no gap), no range runs
    backwards (boundaries never decrease), an earlier range ends before a
    later one starts (no overlap), the last boundary is [L], and every index
    lies in exactly one range when it is in [[0, L)] and in none otherwise.
    Nothing is asked of [L mod T]. *)
Theorem batch_ranges_partition (L : nat) (T : Z) :
  1 <= T ->
  exists rs,
    batch_ranges L T = Ok rs /\
    Z.of_nat (length rs) = T /\
    chained 0 (Z.of_nat L) rs /\
    ForallOrdPairs (fun r s => snd r <= fst s) rs /\
    snd (last rs (0, 0)) = Z.of_nat L /\
    forall k, cover_count k rs = expected_count 0 (Z.of_nat L) k.
Proof.
  intros HT.
  destruct (batch_ranges_chain L T HT) as (rs & Hrs & Hlen & Hch).
  exists rs. repeat apply conj.
  - exact Hrs.
  - exact Hlen.
  - exact Hch.
  - eapply chained_ordered. exact Hch.
  - eapply chained_last; [exact Hch|].
    intros E. rewrite E in Hlen. simpl in Hlen. lia.
  - intros k. now apply chained_cover.
Qed.

Lemma batch_ranges_partition_witness :
  exists rs,
    batch_ranges 10 3 = Ok rs /\
    Z.of_nat (length rs) = 3 /\
    chained 0 (Z.of_nat 10) rs /\
    ForallOrdPairs (fun r s => snd r <= fst s) rs /\
    snd (last rs (0, 0)) = Z.of_nat 10 /\
    forall k, cover_count k rs = expected_count 0 (Z.of_nat 10) k.
Proof. apply (batch_ranges_partition 10 3). lia. Defined.




(** ** Indexing and collecting *)

Lemma index_nth {A} (l : list A) (i : nat) (d : A) :
  (i < length l)%nat -> Py.index l (Z.of_nat i) = Ok (nth i l d).
Proof.
  intros Hi. unfold Py.index.
  destruct (Z.ltb_spec (Z.of_nat i) 0) as [?|_]; [lia|].
  destruct (Z.leb_spec 0 (Z.of_nat i)) as [_|?]; [|lia].
  destruct (Z.ltb_spec (Z.of_nat i) (Z.of_nat (length l))) as [_|?]; [|lia].
  simpl. rewrite Nat2Z.id.
  destruct (nth_error l i) as [x|] eqn:E.
  - now rewrite (nth_error_nth _ _ d E).
  - apply nth_error_None in E. lia.
Qed.

Lemma index_nth_Z {A} (l : list A) (i : Z) (d : A) :
  0 <= i < Z.of_nat (length l) ->
  Py.index l i = Ok (nth (Z.to_nat i) l d).
Proof.
  intros Hi. rewrite <- (Z2Nat.id i) at 1 by lia. apply index_nth. lia.
Qed.

Lemma collect_seq_Forall2 {A B} (P : A -> B -> Prop) (f : Z -> result B)
    (d : A) (l : list A) :
  forall k,
    (forall i, (i < length l)%nat ->
       exists y, f (Z.of_nat (k + i)) = Ok y /\ P (nth i l d) y) ->
    exists ys,
      collect f (map Z.of_nat (seq k (length l))) = Ok ys /\ Forall2 P l ys.
Proof.
  induction l as [|x l IH]; intros k H.
  - exists []. split; [reflexivity|constructor].
  - destruct (H 0%nat) as (y & Hy & Py); [simpl; lia|].
    rewrite Nat.add_0_r in Hy.
    destruct (IH (S k)) as (ys & Hys & Pys).
    { intros i Hi. destruct (H (S i)) as (z & Hz & Pz); [simpl; lia|].
      exists z. split; [|exact Pz].
      now replace (S k + i)%nat with (k + S i)%nat by lia. }
    exists (y :: ys). split; [|now constructor].
    simpl. rewrite Hy. simpl. rewrite Hys. reflexivity.
Qed.

Lemma Forall2_eq_inv {A} (l ys : list A) :
  Forall2 (fun a b => a = b) l ys -> ys = l.
Proof. induction 1; congruence. Qed.

Lemma nth_consecutive (sp : list Z) :
  forall i, (S i < length sp)%nat ->
    nth i (consecutive sp) (0, 0) = (nth i sp 0, nth (S i) sp 0).
Proof.
  induction sp as [|a [|b t] IH]; intros i Hi; simpl in Hi; try lia.
  change (consecutive (a :: b :: t)) with ((a, b) :: consecutive (b :: t)).
  destruct i as [|i]; [reflexivity|].
  change (nth (S i) ((a, b) :: consecutive (b :: t)) (0, 0))
    with (nth i (consecutive (b :: t)) (0, 0)).
  rewrite IH by (simpl; lia). reflexivity.
Qed.

(** Reading the ranges off [n + 1] boundaries one index at a time gives
    the consecutive pairs. *)
Lemma collect_shard_range (sp : list Z) (n : Z) :
  Z.of_nat (length sp) = n + 1 ->
  collect (shard_range sp) (Py.range n) = Ok (consecutive sp).
Proof.
  intros Hlen. unfold Py.range.
  assert (Hn : Z.to_nat n = length (consecutive sp)).
  { rewrite length_consecutive. lia. }
  rewrite Hn.
  destruct (collect_seq_Forall2 (fun a b => a = b) (shard_range sp) (0, 0)
              (consecutive sp) 0%nat) as (ys & Hys & Heq).
  - intros i Hi. rewrite length_consecutive in Hi. simpl.
    exists (nth i sp 0, nth (S i) sp 0). split.
    + unfold shard_range.
      rewrite (index_nth sp i 0) by lia. simpl.
      replace (Z.of_nat i + 1) with (Z.of_nat (S i)) by lia.
      rewrite (index_nth sp (S i) 0) by lia. reflexivity.
    + apply nth_consecutive. lia.
  - rewrite Hys. f_equal. now apply Forall2_eq_inv.
Qed.

Lemma shards_per_batch_exact (S T : Z) :
  1 <= T -> 0 <= S -> Py.mod_ S T = Ok 0 ->
  shards_per_batch S T = Ok (S / T).
Proof.
  intros HT HS Hmod. unfold shards_per_batch. rewrite Hmod. simpl.
  unfold Py.truediv. destruct (Z.eqb_spec T 0) as [?|_]; [lia|].
  simpl. f_equal. destruct T as [|p|p]; try lia.
  unfold Py.int_, Qdiv, Qmult, Qinv, inject_Z; simpl.
  rewrite Z.mul_1_r. apply Z.quot_div_nonneg; lia.
Qed.

Lemma mod_zero_quotient (S T : Z) :
  1 <= T -> 1 <= S -> Py.mod_ S T = Ok 0 -> 1 <= S / T /\ S = T * (S / T).
Proof.
  intros HT HS. unfold Py.mod_.
  destruct (Z.eqb_spec T 0) as [?|_]; [lia|]. intros [= Hm].
  pose proof (Z.div_mod S T ltac:(lia)) as Hdm. split; [nia|lia].
Qed.

Lemma shard_spacing_closed_form (lo hi n : Z) :
  0 < n -> 0 <= lo -> lo <= hi ->
  shard_spacing (lo, hi) n
  = Ok (map (fun j => lo + (j * (hi - lo)) / n) (Py.range (n + 1))).
Proof.
  intros Hn Hlo Hhi. unfold shard_spacing. simpl fst; simpl snd.
  destruct (linspace_int lo hi n) as (y & Hy & Hint); try lia.
  rewrite Hy. simpl. now rewrite Hint.
Qed.

(** The shard ranges of one worker: the consecutive pairs of the
    boundaries interpolated over its own range. *)
Lemma worker_shard_ranges_closed_form (ranges : list (Z * Z)) (S t : Z) :
  1 <= S ->
  Py.mod_ S (Z.of_nat (length ranges)) = Ok 0 ->
  0 <= t < Z.of_nat (length ranges) ->
  Forall (fun r => 0 <= fst r /\ fst r <= snd r) ranges ->
  let n := S / Z.of_nat (length ranges) in
  let r := nth (Z.to_nat t) ranges (0, 0) in
  worker_shard_ranges ranges S t
  = Ok (consecutive
          (map (fun j => fst r + (j * (snd r - fst r)) / n) (Py.range (n + 1)))).
Proof.
  intros HS Hmod Ht Hall n r. unfold worker_shard_ranges.
  destruct (mod_zero_quotient S (Z.of_nat (length ranges))) as [Hn _];
    try lia; try assumption.
  rewrite shards_per_batch_exact by (try lia; assumption).
  simpl rbind. rewrite (index_nth_Z ranges t (0, 0)) by lia.
  simpl rbind. fold r. fold n.
  assert (Hr : 0 <= fst r /\ fst r <= snd r).
  { rewrite Forall_forall in Hall. apply Hall. unfold r. apply nth_In. lia. }
  destruct r as [lo hi]. simpl in Hr. simpl fst; simpl snd.
  rewrite shard_spacing_closed_form by lia. simpl rbind.
  apply collect_shard_range. rewrite length_map, length_range. lia.
Qed.


(** ** Shard ranges of the workers *)




(** ** Records *)

Lemma after_last_slash_none (p : string) :
  Str.after_last_slash p = None <-> Str.has_slash p = false.
Proof.
  induction p as [|c t IH]; simpl; [tauto|].
  destruct (Str.after_last_slash t) as [s|].
  - split; [discriminate|]. intros H.
    apply orb_false_elim in H as [_ H]. apply IH in H. discriminate.
  - destruct (Str.is_slash c); simpl; [split; discriminate|tauto].
Qed.

Lemma after_last_slash_some (p s : string) :
  Str.after_last_slash p = Some s -> Str.has_slash s = false.
Proof.
  revert s. induction p as [|c t IH]; simpl; intros s H; [discriminate|].
  destruct (Str.after_last_slash t) as [s'|] eqn:E.
  - injection H as <-. now apply IH.
  - destruct (Str.is_slash c); [|discriminate].
    injection H as <-. now apply after_last_slash_none.
Qed.

Lemma basename_join (dir name : string) :
  Str.has_slash name = false ->
  Str.basename (dir ++ "/" ++ name) = name.
Proof.
  intros Hname. unfold Str.basename.
  assert (H : Str.after_last_slash (dir ++ "/" ++ name) = Some name).
  { induction dir as [|c t IH]; simpl.
    - apply after_last_slash_none in Hname. now rewrite Hname.
    - simpl in IH. now rewrite IH. }
  now rewrite H.
Qed.

Lemma basename_no_slash (p : string) :
  Str.has_slash (Str.basename p) = false.
Proof.
  unfold Str.basename. destruct (Str.after_last_slash p) as [s|] eqn:E.
  - eapply after_last_slash_some; eassumption.
  - now apply after_last_slash_none.
Qed.

(** C7.  The record built for a file carries the colorspace label "RGB"
    for 3 channels, "RGBA" for 4, "MONO" for 1 and "unknown" for every other
    channel count; its filename field is the base name of the path: it holds
    no directory separator, and for a path [dir/name] it is [name]. *)
Theorem convert_to_example_fields
    (filename image_buffer : string) (height width channels : Z) :
  let e := _convert_to_example filename image_buffer height width channels in
  (channels = 3 -> image_colorspace e = "RGB"%string) /\
  (channels = 4 -> image_colorspace e = "RGBA"%string) /\
  (channels = 1 -> image_colorspace e = "MONO"%string) /\
  (channels <> 3 -> channels <> 4 -> channels <> 1 ->
   image_colorspace e = "unknown"%string) /\
  image_filename e = Str.basename filename /\
  Str.has_slash (image_filename e) = false /\
  (forall dir name,
     Str.has_slash name = false -> filename = (dir ++ "/" ++ name)%string ->
     image_filename e = name).
Proof.
  simpl. unfold colorspace_of. repeat apply conj.
  - now intros ->.
  - now intros ->.
  - now intros ->.
  - intros H3 H4 H1.
    destruct (Z.eqb_spec channels 4); [contradiction|].
    destruct (Z.eqb_spec channels 3); [contradiction|].
    destruct (Z.eqb_spec channels 1); [contradiction|]. reflexivity.
  - reflexivity.
  - apply basename_no_slash.
  - intros dir name Hname ->. now apply basename_join.
Qed.

Lemma convert_to_example_fields_witness :
  image_colorspace (_convert_to_example "/data/img/cat.png" "bytes" 32 32 3)
  = "RGB"%string /\
  image_colorspace (_convert_to_example "/data/img/cat.png" "bytes" 32 32 2)
  = "unknown"%string /\
  image_filename (_convert_to_example "/data/img/cat.png" "bytes" 32 32 3)
  = "cat.png"%string.
Proof.
  split; [|split].
  - apply (convert_to_example_fields "/data/img/cat.png" "bytes" 32 32 3).
    reflexivity.
  - apply (convert_to_example_fields "/data/img/cat.png" "bytes" 32 32 2);
      discriminate.
  - apply (convert_to_example_fields "/data/img/cat.png" "bytes" 32 32 3)
      with (dir := "/data/img"%string); reflexivity.
Defined.

(** ** The data set splitter *)

Lemma slice_to_firstn {A} (l : list A) (n : Z) :
  0 <= n <= Z.of_nat (length l) -> Py.slice_to l n = firstn (Z.to_nat n) l.
Proof.
  intros Hn. unfold Py.slice_to.
  destruct (Z.ltb_spec n 0) as [?|_]; [lia|].
  now rewrite Z.min_l by lia.
Qed.

Lemma slice_from_last {A} (l : list A) (m : Z) :
  0 < m <= Z.of_nat (length l) ->
  Py.slice_from l (- m) = skipn (Z.to_nat (Z.of_nat (length l) - m)) l.
Proof.
  intros Hm. unfold Py.slice_from.
  destruct (Z.ltb_spec (- m) 0) as [_|?]; [|lia].
  rewrite Z.max_r by lia. reflexivity.
Qed.

Lemma num_train_files_floor (F : flags) (filenames : list string) :
  (0 <= validation_size F)%Q -> (validation_size F < 1)%Q ->
  num_train_files F filenames
  = Qfloor (inject_Z (Z.of_nat (length filenames)) * (1 - validation_size F))
  /\ 0 <= num_train_files F filenames <= Z.of_nat (length filenames).
Proof.
  intros Hv0 Hv1. unfold num_train_files.
  set (L := Z.of_nat (length filenames)).
  set (v := validation_size F) in *.
  assert (HL : (0 <= inject_Z L)%Q).
  { change 0%Q with (inject_Z 0). rewrite <- Zle_Qle. unfold L. lia. }
  assert (Hq0 : (0 <= inject_Z L * (1 - v))%Q) by nra.
  assert (HqL : (inject_Z L * (1 - v) <= inject_Z L)%Q) by nra.
  rewrite int_floor by exact Hq0. split; [reflexivity|]. split.
  - change 0 with (Qfloor (inject_Z 0)). now apply Qfloor_resp_le.
  - rewrite <- (Qfloor_Z L) at 2. now apply Qfloor_resp_le.
Qed.



(** ** The program as a whole *)

Section Facts.

Variable gfile_glob : string -> list string.
Variable gfile_read : string -> result string.
Variable decode_png : string -> result (Z * Z * Z).
Variable rng : Type.
Variable rng_seed : Z -> rng.
Variable rng_below : rng -> Z -> Z * rng.

Local Abbreviation Main :=
  (main gfile_glob gfile_read decode_png rng rng_seed rng_below).
Local Abbreviation Find :=
  (_find_image_files gfile_glob rng rng_seed rng_below).
Local Abbreviation Shuffle := (seeded_shuffle rng rng_seed rng_below).
Local Abbreviation Loop := (shuffle_loop rng rng_below).
Local Abbreviation Globs := (glob_extensions gfile_glob rng).

(** *** Configuration check *)

(** C6.  When [num_shards % num_threads] is not zero, [main] raises the
    assertion error of its configuration check at once: the world it
    leaves is the world it was started in, so that no pattern was globbed
    and no writer was opened, and the process exits with a non-zero
    status. *)
Theorem main_rejects_uneven_shards (F : flags) (w : world rng) (r : Z) :
  Py.mod_ (num_shards F) (num_threads F) = Ok r -> r <> 0 ->
  Main F w = (Raise AssertionError, w) /\
  exit_status (fst (Main F w)) <> 0 /\
  globbed (trace (snd (Main F w))) = globbed (trace w) /\
  opened (trace (snd (Main F w))) = opened (trace w).
Proof.
  intros Hmod Hr.
  assert (E : Main F w = (Raise AssertionError, w)).
  { unfold main, bind, lift. rewrite Hmod.
    destruct (Z.eqb_spec r 0) as [?|_]; [contradiction|]. reflexivity. }
  rewrite E. simpl. repeat split. discriminate.
Qed.

(** *** Shuffle *)

Lemma shuffle_loop_state (is_ : list Z) :
  forall (x : list Z) (w1 w2 : world rng),
    rng_state w1 = rng_state w2 ->
    fst (Loop is_ x w1) = fst (Loop is_ x w2).
Proof.
  induction is_ as [|i rest IH]; intros x w1 w2 Hs; [reflexivity|].
  simpl. unfold bind, random_below, lift. rewrite Hs.
  destruct (rng_below (rng_state w2) (i + 1)) as [j s].
  destruct (swap x i j) as [x'|e]; [|reflexivity].
  apply IH. reflexivity.
Qed.

Lemma glob_extensions_result (data_dir : string) (exts : list string) :
  forall (acc : list string) (w : world rng),
    Globs data_dir exts acc w
    = (Ok (acc ++ concat (map (fun ext =>
                                 gfile_glob (data_dir ++ "/*" ++ ext)%string)
                            exts)),
       {| rng_state := rng_state w;
          trace := trace w
                   ++ map (fun ext => Glob (data_dir ++ "/*" ++ ext)%string)
                        exts |}).
Proof.
  induction exts as [|ext rest IH]; intros acc w; simpl.
  - rewrite !app_nil_r. destruct w; reflexivity.
  - unfold bind, gfile_Glob, emit, ret. unfold bind. rewrite IH. simpl.
    now rewrite <- !app_assoc.
Qed.

Lemma swap_head_perm (d : Z) (t : list Z) :
  forall (b : nat) (h : Z),
    (b < length t)%nat ->
    Permutation (h :: t) (nth b t d :: Py.replace_nth t b h).
Proof.
  induction t as [|y t IH]; intros b h Hb; simpl in Hb; [lia|].
  destruct b as [|b]; simpl.
  - apply perm_swap.
  - eapply perm_trans; [apply perm_swap|].
    eapply perm_trans; [apply perm_skip, (IH b h); lia|].
    apply perm_swap.
Qed.

Lemma replace_swap_perm (d : Z) (x : list Z) :
  forall a b : nat,
    (a < length x)%nat -> (b < length x)%nat ->
    Permutation x
      (Py.replace_nth (Py.replace_nth x a (nth b x d)) b (nth a x d)).
Proof.
  induction x as [|h t IH]; intros a b Ha Hb; simpl in Ha, Hb; [lia|].
  destruct a as [|a], b as [|b]; simpl.
  - apply Permutation_refl.
  - apply swap_head_perm. lia.
  - apply swap_head_perm. lia.
  - apply perm_skip, IH; lia.
Qed.

Lemma index_inv {A} (l : list A) (i : Z) (v d : A) :
  Py.index l i = Ok v ->
  let j := if i <? 0 then Z.of_nat (length l) + i else i in
  0 <= j < Z.of_nat (length l) /\ v = nth (Z.to_nat j) l d.
Proof.
  intros H j. unfold Py.index in H. fold j in H.
  destruct (Z.leb_spec 0 j); [|discriminate].
  destruct (Z.ltb_spec j (Z.of_nat (length l))); [|discriminate].
  simpl in H. split; [lia|].
  destruct (nth_error l (Z.to_nat j)) eqn:E; [|discriminate].
  injection H as <-. symmetry. now apply nth_error_nth.
Qed.

Lemma length_replace_nth {A} (l : list A) :
  forall n v, length (Py.replace_nth l n v) = length l.
Proof.
  induction l as [|x l IH]; intros [|n] v; simpl; auto.
Qed.

(** [x[i], x[j] = x[j], x[i]], when it does not raise, reorders [x]. *)
Lemma swap_perm (x x' : list Z) (i j : Z) :
  swap x i j = Ok x' -> Permutation x x'.
Proof.
  unfold swap. intros H.
  destruct (Py.index x j) as [xj|] eqn:Ej; [|discriminate].
  destruct (Py.index x i) as [xi|] eqn:Ei; [|discriminate].
  simpl in H.
  apply (index_inv _ _ _ 0) in Ej as [Hj ->].
  apply (index_inv _ _ _ 0) in Ei as [Hi ->].
  unfold Py.setitem in H.
  set (a := if i <? 0 then Z.of_nat (length x) + i else i) in *.
  set (b := if j <? 0 then Z.of_nat (length x) + j else j) in *.
  destruct (Z.leb_spec 0 a); [|lia].
  destruct (Z.ltb_spec a (Z.of_nat (length x))); [|lia].
  simpl in H. rewrite length_replace_nth in H. fold b in H.
  destruct (Z.leb_spec 0 b); [|lia].
  destruct (Z.ltb_spec b (Z.of_nat (length x))); [|lia].
  simpl in H. injection H as <-.
  apply replace_swap_perm; lia.
Qed.

(** The shuffle, when it returns, returns a reordering of its argument. *)
Lemma seeded_shuffle_permutation (x x' : list Z) (w w' : world rng) :
  Shuffle x w = (Ok x', w') -> Permutation x x'.
Proof.
  unfold seeded_shuffle, bind, random_seed, random_shuffle.
  generalize (rev (map (fun i => 1 + i)
                     (Py.range (Z.of_nat (length x) - 1)))).
  generalize ({| rng_state := rng_seed 12345; trace := trace w |}).
  intros u is_. revert x u.
  induction is_ as [|i rest IH]; intros x u; simpl.
  - unfold ret. intros [= -> _]. apply Permutation_refl.
  - unfold bind, random_below, lift.
    destruct (rng_below (rng_state u) (i + 1)) as [j s].
    destruct (swap x i j) as [x1|e] eqn:E; [|discriminate].
    intros H. eapply perm_trans; [eapply swap_perm; exact E|].
    eapply IH; exact H.
Qed.

(** C9.  The shuffle with the fixed seed returns the same permutation
    from whatever state the generator and the trace are in before it, so a
    second run on the same list repeats the first; file discovery, which
    reorders the listing by that permutation, returns the same list of
    files in both runs. *)
Theorem seeded_shuffle_deterministic
    (x : list Z) (data_dir : string) (w1 w2 : world rng) :
  fst (Shuffle x w1) = fst (Shuffle x w2) /\
  fst (Shuffle x (snd (Shuffle x w1))) = fst (Shuffle x w1) /\
  fst (Find data_dir w1) = fst (Find data_dir w2).
Proof.
  assert (H : forall y (u1 u2 : world rng),
             fst (Shuffle y u1) = fst (Shuffle y u2)).
  { intros y u1 u2. unfold seeded_shuffle, bind, random_seed, random_shuffle.
    apply shuffle_loop_state. reflexivity. }
  split; [apply H|]. split; [apply H|].
  unfold _find_image_files. unfold bind at 1 3.
  rewrite !glob_extensions_result. unfold bind.
  match goal with
  | |- fst (match Shuffle ?y ?u1 with _ => _ end)
       = fst (match Shuffle ?y ?u2 with _ => _ end) =>
      pose proof (H y u1 u2) as E;
      destruct (Shuffle y u1) as [[p1|e1] v1];
      destruct (Shuffle y u2) as [[p2|e2] v2];
      simpl in E; try discriminate
  end.
  - injection E as ->. reflexivity.
  - injection E as ->. reflexivity.
Qed.

End Facts.

Lemma main_rejects_uneven_shards_witness :
  Sample.run ["d/a.png"%string] [] (Sample.flags_of 10 3 0)
  = (Raise AssertionError, Sample.start).
Proof.
  apply (main_rejects_uneven_shards (Sample.glob ["d/a.png"%string])
           Sample.read (Sample.decode []) unit Sample.seed Sample.below
           (Sample.flags_of 10 3 0) Sample.start 1).
  - reflexivity.
  - discriminate.
Defined.

(** ** Empty shard files *)

(** C10.  One file, one worker, two shards, no validation share: the
    configuration passes the check and the train split holds a file, yet the
    worker opens and closes [train-00000-of-00002] without writing a record
    to it; the single record goes to [train-00001-of-00002].  The empty
    validation split opens no file at all. *)
Theorem empty_shard_file_is_written :
  let F := Sample.flags_of 2 1 0 in
  let out := Sample.run ["d/a.png"%string] [] F in
  Py.mod_ (num_shards F) (num_threads F) = Ok 0 /\
  datasets F ["d/a.png"%string] = [("train"%string, ["d/a.png"%string])] /\
  fst out = Ok tt /\
  opened (trace (snd out))
  = ["train-00000-of-00002"; "train-00001-of-00002"]%string /\
  closed (trace (snd out))
  = ["train-00000-of-00002"; "train-00001-of-00002"]%string /\
  records_of "train-00000-of-00002" (trace (snd out)) = [] /\
  length (records_of "train-00001-of-00002" (trace (snd out))) = 1%nat /\
  length (written (trace (snd out))) = 1%nat.
Proof. vm_compute. repeat split. Qed.

(** ** Index ranges and the files they select *)

Lemma map_seq_offset {A} (b : nat) :
  forall (f : nat -> A) (a : nat),
    map f (seq a b) = map (fun i => f (a + i)%nat) (seq 0 b).
Proof.
  induction b as [|b IH]; intros f a; [reflexivity|].
  simpl. rewrite Nat.add_0_r. f_equal.
  rewrite (IH f (S a)), (IH (fun i => f (a + i)%nat) 1%nat).
  apply map_ext. intros i. f_equal. lia.
Qed.



Lemma arange_in (lo hi i : Z) : In i (Np.arange lo hi) -> lo <= i < hi.
Proof.
  unfold Np.arange. rewrite in_map_iff. intros [k [<- Hk]].
  apply in_seq in Hk. lia.
Qed.

Lemma length_arange (lo hi : Z) :
  length (Np.arange lo hi) = Z.to_nat (hi - lo).
Proof. unfold Np.arange. now rewrite length_map, length_seq. Qed.

Lemma map_nth_seq {A} (d : A) (l : list A) :
  forall m, (m <= length l)%nat ->
    map (fun k => nth k l d) (seq 0 m) = firstn m l.
Proof.
  induction l as [|x l IH]; intros m Hm.
  - simpl in Hm. replace m with 0%nat by lia. reflexivity.
  - destruct m as [|m]; [reflexivity|]. simpl in Hm. simpl. f_equal.
    rewrite map_seq_offset. simpl. apply IH. lia.
Qed.

Lemma nth_skipn_add {A} (d : A) (l : list A) :
  forall n k, nth k (skipn n l) d = nth (n + k) l d.
Proof.
  induction l as [|x l IH]; intros n k.
  - rewrite skipn_nil. now destruct k, n.
  - destruct n as [|n]; [reflexivity|]. simpl. apply IH.
Qed.

(** The files at the indices [lo], ..., [hi - 1]. *)
Lemma map_nth_arange {A} (d : A) (l : list A) (lo hi : Z) :
  0 <= lo -> lo <= hi -> hi <= Z.of_nat (length l) ->
  map (fun i => nth (Z.to_nat i) l d) (Np.arange lo hi)
  = files_between l lo hi.
Proof.
  intros H0 H1 H2. unfold Np.arange, files_between. rewrite map_map.
  rewrite <- (map_nth_seq d) by (rewrite length_skipn; lia).
  apply map_ext. intros k. rewrite nth_skipn_add. f_equal. lia.
Qed.




Lemma collect_Forall2 {A B} (f : A -> result B) (l : list A) :
  forall ys, collect f l = Ok ys -> Forall2 (fun x y => f x = Ok y) l ys.
Proof.
  induction l as [|x l IH]; simpl; intros ys H.
  - injection H as <-. constructor.
  - destruct (f x) as [y|e] eqn:E; simpl in H; [|discriminate].
    destruct (collect f l) as [ys'|e]; simpl in H; [|discriminate].
    injection H as <-. constructor; auto.
Qed.

Lemma spec_05d_nonneg (n : Z) : 0 <= n -> Str.percent_dot5d n = Str.spec_05d n.
Proof.
  intros H. unfold Str.percent_dot5d, Str.spec_05d, Str.sign.
  destruct (Z.ltb_spec n 0) as [?|_]; [lia|]. reflexivity.
Qed.

Lemma shard_filename_spec (name : string) (shard num_shards : Z) :
  0 <= shard -> 0 <= num_shards ->
  shard_filename name shard num_shards = spec_shard_name name shard num_shards.
Proof.
  intros H1 H2. unfold shard_filename, spec_shard_name.
  now rewrite !spec_05d_nonneg by assumption.
Qed.

(** ** The worker *)

Section Worker.

Variable gfile_read : string -> result string.
Variable decode_png : string -> result (Z * Z * Z).
Variable rng : Type.
Variable F : flags.
Variable filenames : list string.
Variable img : string -> string * Z * Z * Z.

Local Abbreviation Image := (_process_image gfile_read decode_png).
Local Abbreviation WriteFiles := (write_files gfile_read decode_png rng).
Local Abbreviation WriteShards :=
  (write_shards gfile_read decode_png rng F).
Local Abbreviation Batch :=
  (_process_image_files_batch gfile_read decode_png rng F).
Local Abbreviation file_at i := (nth (Z.to_nat i) filenames EmptyString).
Local Abbreviation len := (Z.of_nat (length filenames)).
Local Abbreviation extend w evs :=
  {| rng_state := rng_state w; trace := trace w ++ evs |}.

Lemma extend_nil (w : world rng) : extend w [] = w.
Proof. destruct w; simpl. now rewrite app_nil_r. Qed.

Lemma write_files_ok (path : string) (idx : list Z) :
  forall (counter : Z) (w : world rng),
    (forall i, In i idx ->
       0 <= i < len /\ Image (file_at i) = Ok (img (file_at i))) ->
    WriteFiles path filenames idx counter w
    = (Ok (counter + Z.of_nat (length idx)),
       extend w (map (fun i => WriteRecord path (record_of img (file_at i)))
                   idx)).
Proof.
  induction idx as [|i idx IH]; intros counter w H.
  - simpl. unfold ret. now rewrite Z.add_0_r, extend_nil.
  - destruct (H i (or_introl eq_refl)) as [Hi Himg].
    simpl. unfold bind, lift.
    rewrite (index_nth_Z filenames i EmptyString) by lia.
    rewrite Himg. unfold record_of.
    destruct (img (file_at i)) as [[[buf h] wd] c].
    unfold emit. rewrite IH by (intros j Hj; apply H; now right).
    simpl. f_equal; [f_equal; lia|]. now rewrite <- app_assoc.
Qed.


Lemma shard_range_inv (sp : list Z) (s lo hi : Z) :
  shard_range sp s = Ok (lo, hi) ->
  Py.index sp s = Ok lo /\ Py.index sp (s + 1) = Ok hi.
Proof.
  unfold shard_range.
  destruct (Py.index sp s) as [a|]; simpl; [|discriminate].
  destruct (Py.index sp (s + 1)) as [b|]; simpl; [|discriminate].
  now intros [= -> ->].
Qed.

(** The shards [ss], with ranges [rs], of a worker all of whose files
    decode: one file after the other is opened, filled and closed. *)
Lemma write_shards_ok (t n : Z) (sp : list Z) (name : string) (S : Z)
    (ss : list Z) (rs : list (Z * Z)) :
  Forall2 (fun s r =>
             0 <= s /\ shard_range sp s = Ok r /\
             0 <= fst r /\ fst r <= snd r /\ snd r <= len /\
             forall i, fst r <= i < snd r ->
               Image (file_at i) = Ok (img (file_at i))) ss rs ->
  0 <= t * n -> 0 <= S ->
  forall (counter : Z) (w : world rng),
  exists c,
    WriteShards t n sp name filenames S ss counter w
    = (Ok c,
       extend w
         (concat
            (map (fun '(s, (lo, hi)) =>
                    shard_events
                      (Str.path_join (output_directory F)
                         (spec_shard_name name (t * n + s) S))
                      (map (record_of img) (files_between filenames lo hi)))
               (combine ss rs)))).
Proof.
  intros Hrel Htn HS.
  induction Hrel as [|s [lo hi] ss rs Hs _ IH]; intros counter w.
  - exists counter. simpl. unfold ret. now rewrite extend_nil.
  - destruct Hs as (Hs0 & Hrange & Hlo & Hle & Hhi & Hdec).
    simpl in Hlo, Hle, Hhi, Hdec.
    apply shard_range_inv in Hrange as [Elo Ehi].
    simpl. unfold bind at 1. unfold emit at 1.
    unfold bind at 1. unfold lift at 1. rewrite Elo.
    unfold bind at 1. unfold lift at 1. rewrite Ehi.
    unfold bind at 1.
    rewrite write_files_ok
      by (intros i Hi; apply arange_in in Hi; split; [lia|apply Hdec; lia]).
    unfold bind at 1. unfold emit at 1.
    match goal with
    | |- context [WriteShards t n sp name filenames S ss ?c ?u] =>
        destruct (IH c u) as [c' E]; rewrite E
    end.
    exists c'. f_equal. simpl. f_equal.
    rewrite shard_filename_spec by lia.
    unfold shard_events. rewrite <- map_map with (g := WriteRecord _).
    replace (map (fun x : Z => record_of img (file_at x)) (Np.arange lo hi))
      with (map (record_of img) (files_between filenames lo hi))
      by (rewrite <- (map_nth_arange EmptyString) by lia;
          now rewrite map_map).
    rewrite <- !app_assoc. reflexivity.
Qed.



Lemma Forall2_strengthen {A B} (P Q : A -> B -> Prop)
    (l : list A) (ys : list B) :
  Forall2 P l ys ->
  (forall x y, In x l -> In y ys -> P x y -> Q x y) ->
  Forall2 Q l ys.
Proof.
  induction 1 as [|x y l ys Hxy _ IH]; intros H; constructor.
  - apply H; simpl; auto.
  - apply IH. intros x' y' Hx' Hy'. apply H; simpl; auto.
Qed.

(** The worker up to its loop over the shards. *)
Lemma batch_unfold (t : Z) (ranges : list (Z * Z)) (name : string) (S : Z)
    (w : world rng) :
  well_started filenames t ranges S ->
  let n := S / Z.of_nat (length ranges) in
  let r := nth (Z.to_nat t) ranges (0, 0) in
  let sp := map (fun j => fst r + (j * (snd r - fst r)) / n)
              (Py.range (n + 1)) in
  1 <= n /\ 0 <= fst r /\ fst r <= snd r /\ snd r <= len /\
  worker_shard_ranges ranges S t = Ok (consecutive sp) /\
  chained (fst r) (snd r) (consecutive sp) /\
  Z.of_nat (length (consecutive sp)) = n /\
  Forall2 (fun s q => shard_range sp s = Ok q) (Py.range n) (consecutive sp) /\
  Batch t ranges name filenames S w
  = bind rng (WriteShards t n sp name filenames S (Py.range n) 0)
      (fun _ => ret rng tt) w.
Proof.
  intros (HS & Hmod & Ht & Hall) n r sp.
  destruct (mod_zero_quotient S (Z.of_nat (length ranges))) as [Hn _];
    try lia; try assumption.
  fold n in Hn.
  assert (Hr : 0 <= fst r /\ fst r <= snd r /\ snd r <= len).
  { rewrite Forall_forall in Hall. apply Hall. unfold r. apply nth_In. lia. }
  assert (Hlen : Z.of_nat (length sp) = n + 1).
  { unfold sp. rewrite length_map, length_range. lia. }
  assert (Hcollect : collect (shard_range sp) (Py.range n)
                     = Ok (consecutive sp))
    by now apply collect_shard_range.
  repeat apply conj; try lia.
  - unfold sp, r, n. apply worker_shard_ranges_closed_form; try assumption.
    eapply Forall_impl; [|exact Hall]. simpl. intros q Hq. lia.
  - unfold sp. apply interp_chained; lia.
  - rewrite length_consecutive. lia.
  - now apply collect_Forall2.
  - unfold _process_image_files_batch.
    unfold bind at 1. unfold lift at 1.
    rewrite shards_per_batch_exact by (try lia; assumption). fold n.
    unfold bind at 1. unfold lift at 1.
    rewrite (index_nth_Z ranges t (0, 0)) by lia. fold r.
    unfold bind at 1. unfold lift at 1.
    destruct r as [lo hi] eqn:Er. simpl in Hr.
    rewrite shard_spacing_closed_form by lia. reflexivity.
Qed.

(** C5.  A worker that is started on one of the ranges and all of whose
    files decode writes its [num_shards / num_threads] shard ranges one
    after the other, in increasing order: for the local shard index [s] it
    opens the file named
    [{split_name}-{shard_index:05d}-of-{num_shards:05d}] under the output
    directory, with [shard_index = worker_index * shards_per_worker + s],
    appends the records of the files of the shard range in the order of
    the range, and closes the file before it opens the next. *)
Theorem worker_writes_shards_in_order (t : Z) (ranges : list (Z * Z))
    (name : string) (S : Z) (w : world rng) :
  well_started filenames t ranges S ->
  (forall i,
     fst (nth (Z.to_nat t) ranges (0, 0)) <= i
     < snd (nth (Z.to_nat t) ranges (0, 0)) ->
     Image (file_at i) = Ok (img (file_at i))) ->
  exists srs,
    worker_shard_ranges ranges S t = Ok srs /\
    Z.of_nat (length srs) = S / Z.of_nat (length ranges) /\
    chained (fst (nth (Z.to_nat t) ranges (0, 0)))
      (snd (nth (Z.to_nat t) ranges (0, 0))) srs /\
    Batch t ranges name filenames S w
    = (Ok tt,
       extend w
         (worker_events (output_directory F) name t
            (S / Z.of_nat (length ranges)) S img filenames srs)).
Proof.
  intros Hstart Hdec.
  destruct (batch_unfold t ranges name S w Hstart)
    as (Hn & Hlo & Hle & Hhi & Hsrs & Hch & Hlen & Hrel & Hbatch).
  set (n := S / Z.of_nat (length ranges)) in *.
  set (r := nth (Z.to_nat t) ranges (0, 0)) in *.
  set (sp := map _ (Py.range (n + 1))) in *.
  exists (consecutive sp). repeat apply conj; try assumption.
  rewrite Hbatch. unfold bind.
  destruct Hstart as (HS & _ & Ht & _).
  destruct (write_shards_ok t n sp name S (Py.range n) (consecutive sp))
    with (counter := 0) (w := w) as [c E]; try nia.
  - eapply Forall2_strengthen; [exact Hrel|].
    intros s q Hs Hq Hsq. apply in_range_bounds in Hs.
    pose proof (chained_within _ _ _ Hch) as Hin.
    rewrite Forall_forall in Hin. specialize (Hin q Hq).
    repeat apply conj; try lia; try assumption.
    intros i Hi. apply Hdec. lia.
  - rewrite E. unfold ret, worker_events. now rewrite Hlen.
Qed.


End Worker.

Lemma worker_writes_shards_in_order_witness :
  let filenames := ["d/a.png"; "d/b.png"; "d/c.png"]%string in
  let img := fun f : string => (f, 32, 32, 3) in
  exists srs,
    worker_shard_ranges [(0, 3)] 2 0 = Ok srs /\
    Z.of_nat (length srs) = 2 / Z.of_nat (length [(0, 3)]) /\
    chained (fst (nth (Z.to_nat 0) [(0, 3)] (0, 0)))
      (snd (nth (Z.to_nat 0) [(0, 3)] (0, 0))) srs /\
    _process_image_files_batch Sample.read (Sample.decode []) unit
      (Sample.flags_of 2 1 0) 0 [(0, 3)] "train" filenames 2 Sample.start
    = (Ok tt,
       {| rng_state := rng_state Sample.start;
          trace := trace Sample.start
                   ++ worker_events (output_directory (Sample.flags_of 2 1 0))
                        "train" 0 (2 / Z.of_nat (length [(0, 3)])) 2 img
                        filenames srs |}).
Proof.
  apply (worker_writes_shards_in_order Sample.read (Sample.decode []) unit
           (Sample.flags_of 2 1 0) ["d/a.png"; "d/b.png"; "d/c.png"]%string
           (fun f : string => (f, 32, 32, 3)) 0 [(0, 3)] "train" 2
           Sample.start).
  - unfold well_started. simpl. repeat split; try lia.
    constructor; [simpl; lia|constructor].
  - intros i Hi. reflexivity.
Defined.

(** ** A file that does not decode *)

Section Run.

Variable gfile_glob : string -> list string.
Variable gfile_read : string -> result string.
Variable decode_png : string -> result (Z * Z * Z).
Variable rng : Type.
Variable rng_seed : Z -> rng.
Variable rng_below : rng -> Z -> Z * rng.
Variable F : flags.

Local Abbreviation Image := (_process_image gfile_read decode_png).
Local Abbreviation Batch :=
  (_process_image_files_batch gfile_read decode_png rng F).
Local Abbreviation Threads := (run_threads gfile_read decode_png rng F).
Local Abbreviation Files :=
  (_process_image_files gfile_read decode_png rng F).
Local Abbreviation Each := (process_each gfile_read decode_png rng F).
Local Abbreviation Find :=
  (_find_image_files gfile_glob rng rng_seed rng_below).
Local Abbreviation Main :=
  (main gfile_glob gfile_read decode_png rng rng_seed rng_below).






End Run.



(** * Further properties of the script *)

(** ** Sizes of the interpolated ranges *)

Lemma consecutive_map_seq (f : nat -> Z) :
  forall m k,
    consecutive (map f (seq k (S m)))
    = map (fun i => (f i, f (S i))) (seq k m).
Proof.
  induction m as [|m IH]; intros k; [reflexivity|].
  change (seq k (S (S m))) with (k :: seq (S k) (S m)).
  change (seq k (S m)) with (k :: seq (S k) m).
  simpl map. rewrite <- IH. reflexivity.
Qed.

(** The ranges between [n + 1] interpolated boundaries, one by one. *)
Lemma consecutive_map_range (g : Z -> Z) (n : Z) :
  0 <= n ->
  consecutive (map g (Py.range (n + 1)))
  = map (fun i => (g i, g (i + 1))) (Py.range n).
Proof.
  intros Hn. unfold Py.range. rewrite !map_map.
  replace (Z.to_nat (n + 1)) with (S (Z.to_nat n)) by lia.
  rewrite (consecutive_map_seq (fun i => g (Z.of_nat i))).
  apply map_ext. intros i. do 2 f_equal. lia.
Qed.

Lemma interp_step_size (m n i : Z) :
  0 < n -> 0 <= m -> 0 <= i ->
  m / n <= ((i + 1) * m) / n - (i * m) / n <= (m + n - 1) / n.
Proof.
  intros Hn Hm Hi.
  pose proof (Z.div_mod (i * m) n ltac:(lia)) as E1.
  pose proof (Z.mod_pos_bound (i * m) n Hn) as B1.
  pose proof (Z.div_mod ((i + 1) * m) n ltac:(lia)) as E2.
  pose proof (Z.mod_pos_bound ((i + 1) * m) n Hn) as B2.
  pose proof (Z.div_mod m n ltac:(lia)) as E3.
  pose proof (Z.mod_pos_bound m n Hn) as B3.
  pose proof (Z.div_mod (m + n - 1) n ltac:(lia)) as E4.
  pose proof (Z.mod_pos_bound (m + n - 1) n Hn) as B4.
  split; nia.
Qed.

Lemma batch_ranges_closed_form (L : nat) (T : Z) :
  1 <= T ->
  batch_ranges L T
  = Ok (map (fun i => ((i * Z.of_nat L) / T, ((i + 1) * Z.of_nat L) / T))
          (Py.range T)).
Proof.
  intros HT. unfold batch_ranges. rewrite spacing_closed_form by exact HT.
  unfold rbind. rewrite consecutive_map_range by lia. f_equal.
  apply map_ext. intros i. now rewrite !Z.add_0_l, !Z.sub_0_r.
Qed.

Lemma batch_range_sizes (L : nat) (T : Z) :
  1 <= T ->
  Forall (fun r =>
            Z.of_nat L / T <= snd r - fst r <= (Z.of_nat L + T - 1) / T)
    (map (fun i => ((i * Z.of_nat L) / T, ((i + 1) * Z.of_nat L) / T))
       (Py.range T)).
Proof.
  intros HT. rewrite Forall_forall. intros r Hr.
  apply in_map_iff in Hr as (i & <- & Hi). apply in_range_bounds in Hi.
  simpl. apply interp_step_size; lia.
Qed.



(** The shard ranges of a worker over its range [[lo, hi)], one by one. *)
Lemma worker_shard_ranges_map (ranges : list (Z * Z)) (S t : Z) :
  1 <= S ->
  Py.mod_ S (Z.of_nat (length ranges)) = Ok 0 ->
  0 <= t < Z.of_nat (length ranges) ->
  Forall (fun r => 0 <= fst r /\ fst r <= snd r) ranges ->
  let n := S / Z.of_nat (length ranges) in
  let r := nth (Z.to_nat t) ranges (0, 0) in
  worker_shard_ranges ranges S t
  = Ok (map (fun j => (fst r + (j * (snd r - fst r)) / n,
                       fst r + ((j + 1) * (snd r - fst r)) / n))
          (Py.range n)).
Proof.
  intros HS Hmod Ht Hall n r.
  destruct (mod_zero_quotient S (Z.of_nat (length ranges))) as [Hn _];
    try lia; try assumption.
  unfold n, r. rewrite worker_shard_ranges_closed_form by assumption.
  now rewrite consecutive_map_range by lia.
Qed.

(** With at least as many files as shards no shard file stays empty: for
    worker and shard counts of at least 1 with
    [num_shards % num_threads == 0] and [num_shards <= L], every shard range
    of every worker holds at least one file. *)
Theorem enough_files_fill_every_shard (L : nat) (T S : Z) :
  1 <= T -> 1 <= S -> Py.mod_ S T = Ok 0 -> S <= Z.of_nat L ->
  exists ranges,
    batch_ranges L T = Ok ranges /\
    forall t, 0 <= t < T ->
      exists srs,
        worker_shard_ranges ranges S t = Ok srs /\
        Z.of_nat (length srs) = S / T /\
        Forall (fun q => fst q < snd q) srs.
Proof.
  intros HT HS Hmod HL.
  destruct (batch_ranges_chain L T HT) as (ranges & Hranges & Hlen & Hch).
  pose proof (batch_range_sizes L T HT) as Hbal.
  pose proof (batch_ranges_closed_form L T HT) as Hrs.
  rewrite Hranges in Hrs. injection Hrs as Hrs. rewrite <- Hrs in Hbal.
  destruct (mod_zero_quotient S T HT HS Hmod) as [Hn HST].
  exists ranges. split; [exact Hranges|]. intros t Ht.
  assert (Hall : Forall (fun r => 0 <= fst r /\ fst r <= snd r) ranges).
  { eapply Forall_impl; [|exact (chained_within _ _ _ Hch)].
    simpl. intros r Hr. lia. }
  pose proof (worker_shard_ranges_map ranges S t) as Hw.
  rewrite Hlen in Hw. simpl in Hw.
  rewrite Hw by (try assumption; lia).
  eexists. split; [reflexivity|]. split.
  - rewrite length_map, length_range. lia.
  - set (r := nth (Z.to_nat t) ranges (0, 0)).
    assert (Hr : Z.of_nat L / T <= snd r - fst r).
    { rewrite Forall_forall in Hbal. apply Hbal. unfold r.
      apply nth_In. lia. }
    assert (Hq : S / T <= Z.of_nat L / T) by (apply Z.div_le_mono; lia).
    rewrite Forall_forall. intros q Hq'.
    apply in_map_iff in Hq' as (j & <- & Hj). apply in_range_bounds in Hj.
    simpl.
    pose proof (interp_step_size (snd r - fst r) (S / T) j
                  ltac:(lia) ltac:(lia) ltac:(lia)) as [Hlow _].
    assert (1 <= (snd r - fst r) / (S / T)).
    { apply Z.div_le_lower_bound; lia. }
    lia.
Qed.

Lemma enough_files_fill_every_shard_witness :
  exists ranges,
    batch_ranges 10 2 = Ok ranges /\
    forall t, 0 <= t < 2 ->
      exists srs,
        worker_shard_ranges ranges 4 t = Ok srs /\
        Z.of_nat (length srs) = 4 / 2 /\
        Forall (fun q => fst q < snd q) srs.
Proof.
  apply (enough_files_fill_every_shard 10 2 4); [lia|lia|reflexivity|lia].
Defined.

(** ** Names of the shard files *)

Lemma string_app_inv_head (p a b : string) :
  (p ++ a = p ++ b)%string -> a = b.
Proof.
  induction p as [|c p IH]; simpl; [auto|]. intros [= H]. auto.
Qed.

Lemma string_length_app (a b : string) :
  String.length (a ++ b) = (String.length a + String.length b)%nat.
Proof. induction a as [|c a IH]; simpl; auto. Qed.

Lemma string_app_inv_tail (a b q : string) :
  (a ++ q = b ++ q)%string -> a = b.
Proof.
  revert b. induction a as [|c a IH]; intros [|d b] H; simpl in H.
  - reflexivity.
  - apply (f_equal String.length) in H. simpl in H.
    rewrite string_length_app in H. lia.
  - apply (f_equal String.length) in H. simpl in H.
    rewrite string_length_app in H. lia.
  - injection H as -> H. f_equal. now apply IH.
Qed.

Lemma decimal_digits (n : Z) :
  Str.decimal n = NilEmpty.string_of_uint (N.to_uint (Z.to_N n)).
Proof.
  unfold Str.decimal, NilZero.string_of_uint.
  destruct (Z.to_N n) as [|p]; [reflexivity|]. simpl.
  pose proof (DecimalPos.Unsigned.to_uint_nonnil p) as H.
  destruct (Pos.to_uint p); [congruence|reflexivity ..].
Qed.

(** The number formatted into a zero-padded field can be read back. *)
Lemma zfill_read_back (width : nat) (n : Z) :
  option_map N.of_uint
    (NilEmpty.uint_of_string (Str.zfill width (Str.decimal n)))
  = Some (Z.to_N n).
Proof.
  unfold Str.zfill. rewrite decimal_digits.
  generalize (width - String.length
                (NilEmpty.string_of_uint (N.to_uint (Z.to_N n))))%nat.
  intros k. induction k as [|k IH]; simpl.
  - rewrite NilEmpty.usu. simpl. f_equal. apply DecimalN.Unsigned.of_to.
  - destruct (NilEmpty.uint_of_string _) as [d|]; simpl in *;
      [exact IH|discriminate].
Qed.

Lemma percent_dot5d_inj (a b : Z) :
  0 <= a -> 0 <= b -> Str.percent_dot5d a = Str.percent_dot5d b -> a = b.
Proof.
  intros Ha Hb. unfold Str.percent_dot5d, Str.sign.
  destruct (Z.ltb_spec a 0) as [?|_]; [lia|].
  destruct (Z.ltb_spec b 0) as [?|_]; [lia|].
  simpl. rewrite !Z.abs_eq by lia. intros H.
  pose proof (zfill_read_back 5 a) as Ea.
  rewrite H, zfill_read_back in Ea. injection Ea as Ea. lia.
Qed.

Lemma path_join_inj (dir a b : string) :
  Str.startswith_slash a = Str.startswith_slash b ->
  Str.path_join dir a = Str.path_join dir b -> a = b.
Proof.
  unfold Str.path_join. intros ->.
  destruct (Str.startswith_slash b); [auto|].
  destruct ((String.length dir =? 0)%nat || Str.endswith_slash dir);
    intros H; apply string_app_inv_head in H; [exact H|].
  now apply (string_app_inv_head "/") in H.
Qed.

Lemma shard_filename_start (name : string) (a b S : Z) :
  Str.startswith_slash (shard_filename name a S)
  = Str.startswith_slash (shard_filename name b S).
Proof. unfold shard_filename. destruct name; reflexivity. Qed.

(** Two different shards of a data set are never written to the same file:
    with [n] shards per worker, the file of the local shard [s] of the worker
    [t] and the file of the local shard [s'] of the worker [t'] have
    different paths unless [t = t'] and [s = s'].  So no two workers ever
    open the same file. *)
Theorem shard_files_distinct (dir name : string) (S n t t' s s' : Z) :
  0 <= t -> 0 <= t' -> 0 <= s < n -> 0 <= s' < n ->
  (t, s) <> (t', s') ->
  Str.path_join dir (shard_filename name (t * n + s) S)
  <> Str.path_join dir (shard_filename name (t' * n + s') S).
Proof.
  intros Ht Ht' Hs Hs' Hne H. apply Hne.
  apply path_join_inj in H; [|apply shard_filename_start].
  unfold shard_filename in H.
  apply string_app_inv_head in H. apply (string_app_inv_head "-") in H.
  apply string_app_inv_tail in H.
  apply percent_dot5d_inj in H; try nia.
  assert (Et : t = t')
    by (destruct (Z.lt_trichotomy t t') as [Hlt|[Heq|Hgt]]; nia).
  subst t'. f_equal. lia.
Qed.

Lemma shard_files_distinct_witness :
  Str.path_join "out" (shard_filename "train" (0 * 2 + 1) 4)
  <> Str.path_join "out" (shard_filename "train" (1 * 2 + 0) 4).
Proof.
  apply (shard_files_distinct "out" "train" 4 2 0 1 1 0); try lia.
  discriminate.
Defined.

(** ** Writers opened and closed *)

Lemma opened_app (t1 t2 : list event) :
  opened (t1 ++ t2) = opened t1 ++ opened t2.
Proof.
  induction t1 as [|[p|p|p e|p] t1 IH]; simpl; rewrite ?IH; reflexivity.
Qed.

Lemma closed_app (t1 t2 : list event) :
  closed (t1 ++ t2) = closed t1 ++ closed t2.
Proof.
  induction t1 as [|[p|p|p e|p] t1 IH]; simpl; rewrite ?IH; reflexivity.
Qed.

Section Writers.

Variable gfile_read : string -> result string.
Variable decode_png : string -> result (Z * Z * Z).
Variable rng : Type.
Variable F : flags.

Local Abbreviation WriteFiles := (write_files gfile_read decode_png rng).
Local Abbreviation WriteShards := (write_shards gfile_read decode_png rng F).
Local Abbreviation Batch :=
  (_process_image_files_batch gfile_read decode_png rng F).

(** Writing the records of a shard opens and closes nothing. *)
Lemma write_files_keeps_writers (path : string) (filenames : list string)
    (idx : list Z) :
  forall (counter : Z) (w : world rng),
    opened (trace (snd (WriteFiles path filenames idx counter w)))
    = opened (trace w) /\
    closed (trace (snd (WriteFiles path filenames idx counter w)))
    = closed (trace w).
Proof.
  induction idx as [|i idx IH]; intros counter w; [now split|].
  simpl. unfold bind, lift.
  destruct (Py.index filenames i) as [f|e]; [|now split].
  destruct (_process_image gfile_read decode_png f)
    as [[[[buf h] wd] c]|e]; [|now split].
  unfold emit.
  match goal with
  | |- context [WriteFiles path filenames idx ?c ?u] =>
      destruct (IH c u) as [E1 E2]; rewrite E1, E2
  end.
  simpl. rewrite opened_app, closed_app. simpl. now rewrite !app_nil_r.
Qed.

Lemma write_shards_writers (t n : Z) (sp : list Z) (name : string)
    (filenames : list string) (S : Z) (ss : list Z) :
  forall (counter : Z) (w w' : world rng) (r : result Z),
    WriteShards t n sp name filenames S ss counter w = (r, w') ->
    exists ps rest,
      closed (trace w') = closed (trace w) ++ ps /\
      opened (trace w') = opened (trace w) ++ ps ++ rest /\
      (length rest <= 1)%nat /\
      (rest = [] \/ exists e, r = Raise e).
Proof.
  induction ss as [|s ss IH]; intros counter w w' r H.
  - simpl in H. injection H as <- <-.
    exists [], []. rewrite !app_nil_r. auto.
  - simpl in H. set (p := Str.path_join _ _) in H.
    unfold bind at 1 in H. unfold emit at 1 in H.
    set (u0 := {| rng_state := rng_state w;
                  trace := trace w ++ [OpenWriter p] |}) in H.
    assert (Ho0 : opened (trace u0) = opened (trace w) ++ [p])
      by (simpl; now rewrite opened_app).
    assert (Hc0 : closed (trace u0) = closed (trace w))
      by (simpl; rewrite closed_app; simpl; now rewrite app_nil_r).
    assert (Hfail : forall e (u : world rng),
              opened (trace u) = opened (trace w) ++ [p] ->
              closed (trace u) = closed (trace w) ->
              (@Raise Z e, u) = (r, w') ->
              exists ps rest,
                closed (trace w') = closed (trace w) ++ ps /\
                opened (trace w') = opened (trace w) ++ ps ++ rest /\
                (length rest <= 1)%nat /\
                (rest = [] \/ exists e', r = Raise e')).
    { intros e u Ho Hc [= <- <-]. exists [], [p]. simpl. rewrite app_nil_r.
      repeat split; auto. right. now exists e. }
    unfold bind at 1 in H. unfold lift at 1 in H.
    destruct (Py.index sp s) as [lo|e]; [|now apply (Hfail e u0)].
    unfold bind at 1 in H. unfold lift at 1 in H.
    destruct (Py.index sp (s + 1)) as [hi|e]; [|now apply (Hfail e u0)].
    unfold bind at 1 in H.
    destruct (write_files_keeps_writers p filenames (Np.arange lo hi)
                counter u0) as [Ho1 Hc1].
    destruct (WriteFiles p filenames (Np.arange lo hi) counter u0)
      as [[c|e] u1];
      change (opened (trace u1) = opened (trace u0)) in Ho1;
      change (closed (trace u1) = closed (trace u0)) in Hc1;
      [|apply (Hfail e u1); congruence].
    unfold bind at 1 in H. unfold emit at 1 in H.
    apply IH in H as (ps & rest & E1 & E2 & E3 & E4).
    exists (p :: ps), rest. rewrite E1, E2. simpl.
    rewrite opened_app, closed_app, Ho1, Hc1, Ho0, Hc0. simpl.
    rewrite !app_nil_r, <- !app_assoc. simpl. repeat split; auto.
Qed.

(** A worker closes every writer it opens, in the order it opened them,
    except possibly the last one: that one stays open only when the worker
    ended with an exception.  This holds whatever the files, ranges and
    counts are. *)
Theorem worker_closes_its_writers (t : Z) (ranges : list (Z * Z))
    (name : string) (filenames : list string) (S : Z) (w : world rng) :
  exists ps rest,
    closed (trace (snd (Batch t ranges name filenames S w)))
    = closed (trace w) ++ ps /\
    opened (trace (snd (Batch t ranges name filenames S w)))
    = opened (trace w) ++ ps ++ rest /\
    (length rest <= 1)%nat /\
    (rest = [] \/
     exists e, fst (Batch t ranges name filenames S w) = Raise e).
Proof.
  destruct (Batch t ranges name filenames S w) as [r w'] eqn:H. simpl.
  assert (Hnone : forall e,
            (@Raise unit e, w) = (r, w') ->
            exists ps rest,
              closed (trace w') = closed (trace w) ++ ps /\
              opened (trace w') = opened (trace w) ++ ps ++ rest /\
              (length rest <= 1)%nat /\
              (rest = [] \/ exists e', r = Raise e')).
  { intros e [= <- <-]. exists [], []. rewrite !app_nil_r. auto. }
  unfold _process_image_files_batch in H.
  unfold bind at 1 in H. unfold lift at 1 in H.
  destruct (shards_per_batch S (Z.of_nat (length ranges))) as [n|e];
    [|now apply (Hnone e)].
  unfold bind at 1 in H. unfold lift at 1 in H.
  destruct (Py.index ranges t) as [rg|e]; [|now apply (Hnone e)].
  unfold bind at 1 in H. unfold lift at 1 in H.
  destruct (shard_spacing rg n) as [sp|e]; [|now apply (Hnone e)].
  unfold bind in H.
  destruct (WriteShards t n sp name filenames S (Py.range n) 0 w)
    as [[c|e] u] eqn:E;
    apply write_shards_writers in E as (ps & rest & E1 & E2 & E3 & E4);
    injection H as <- <-; exists ps, rest; repeat split; auto.
  - destruct E4 as [E4|[e E4]]; [auto|discriminate].
  - right. now exists e.
Qed.

End Writers.

(** ** A data set whose files all decode *)








Section FanOut.

Variable gfile_read : string -> result string.
Variable decode_png : string -> result (Z * Z * Z).
Variable rng : Type.
Variable F : flags.
Variable img : string -> string * Z * Z * Z.

Local Abbreviation Image := (_process_image gfile_read decode_png).
Local Abbreviation WriteShards := (write_shards gfile_read decode_png rng F).
Local Abbreviation Batch :=
  (_process_image_files_batch gfile_read decode_png rng F).
Local Abbreviation Threads := (run_threads gfile_read decode_png rng F).
Local Abbreviation Files :=
  (_process_image_files gfile_read decode_png rng F).

(** What a run that went well has added to a world: [ps] are the files
    opened, all of them closed, and [rs] the records written. *)
Local Abbreviation added w w' ps rs :=
  (rng_state w' = rng_state w /\
   opened (trace w') = opened (trace w) ++ ps /\
   closed (trace w') = closed (trace w) ++ ps /\
   written (trace w') = written (trace w) ++ rs).





End FanOut.


(** ** A worker started by the fan-out fails only on a file *)

Section Outcome.

Variable gfile_read : string -> result string.
Variable decode_png : string -> result (Z * Z * Z).
Variable rng : Type.
Variable F : flags.
Variable filenames : list string.

Local Abbreviation Image := (_process_image gfile_read decode_png).
Local Abbreviation Batch :=
  (_process_image_files_batch gfile_read decode_png rng F).
Local Abbreviation file_at i := (nth (Z.to_nat i) filenames EmptyString).



End Outcome.


(** ** File discovery *)

Lemma swap_ok (x : list Z) (i j : Z) :
  0 <= i < Z.of_nat (length x) -> 0 <= j < Z.of_nat (length x) ->
  exists x', swap x i j = Ok x' /\ length x' = length x.
Proof.
  intros Hi Hj. unfold swap.
  rewrite (index_nth_Z x j 0), (index_nth_Z x i 0) by lia. simpl.
  unfold Py.setitem.
  destruct (Z.ltb_spec i 0) as [?|_]; [lia|].
  destruct (Z.leb_spec 0 i) as [_|?]; [|lia].
  destruct (Z.ltb_spec i (Z.of_nat (length x))) as [_|?]; [|lia].
  simpl. rewrite length_replace_nth.
  destruct (Z.ltb_spec j 0) as [?|_]; [lia|].
  destruct (Z.leb_spec 0 j) as [_|?]; [|lia].
  destruct (Z.ltb_spec j (Z.of_nat (length x))) as [_|?]; [|lia].
  simpl. eexists. split; [reflexivity|]. now rewrite !length_replace_nth.
Qed.

Lemma gather_ok {A} (d : A) (l : list A) (idx : list Z) :
  Forall (fun i => 0 <= i < Z.of_nat (length l)) idx ->
  Py.gather l idx = Ok (map (fun i => nth (Z.to_nat i) l d) idx).
Proof.
  induction 1 as [|i idx Hi _ IH]; [reflexivity|].
  simpl. rewrite (index_nth_Z l i d) by lia. simpl. now rewrite IH.
Qed.

Lemma map_nth_range {A} (d : A) (l : list A) :
  map (fun i => nth (Z.to_nat i) l d) (Py.range (Z.of_nat (length l))) = l.
Proof.
  unfold Py.range. rewrite map_map, Nat2Z.id.
  rewrite <- (firstn_all l) at 2. rewrite <- (map_nth_seq d) by lia.
  apply map_ext. intros k. now rewrite Nat2Z.id.
Qed.

Section Discovery.

Variable gfile_glob : string -> list string.
Variable rng : Type.
Variable rng_seed : Z -> rng.
Variable rng_below : rng -> Z -> Z * rng.

(** The generator draws the position below the bound it is given, as
    [random.shuffle] relies on. *)
Hypothesis draws_below :
  forall (s : rng) (n : Z), 0 < n -> 0 <= fst (rng_below s n) < n.

Local Abbreviation Find :=
  (_find_image_files gfile_glob rng rng_seed rng_below).
Local Abbreviation Loop := (shuffle_loop rng rng_below).

Lemma shuffle_loop_ok (is_ : list Z) :
  forall (x : list Z) (w : world rng),
    Forall (fun i => 0 <= i < Z.of_nat (length x)) is_ ->
    exists x' w',
      Loop is_ x w = (Ok x', w') /\ trace w' = trace w /\ Permutation x x'.
Proof.
  induction is_ as [|i rest IH]; intros x w Hall.
  - exists x, w. simpl. unfold ret. auto.
  - inversion Hall as [|? ? Hi Hrest]; subst.
    simpl. unfold bind, random_below, lift.
    pose proof (draws_below (rng_state w) (i + 1) ltac:(lia)) as Hj.
    destruct (rng_below (rng_state w) (i + 1)) as [j s]. simpl in Hj.
    destruct (swap_ok x i j) as (x1 & E & Hlen); try lia.
    rewrite E.
    match goal with
    | |- context [Loop rest x1 ?u] =>
        destruct (IH x1 u) as (x' & w' & E' & Ht & Hp)
    end.
    { rewrite Hlen. exact Hrest. }
    exists x', w'. split; [exact E'|]. split; [exact Ht|].
    eapply perm_trans; [eapply swap_perm; exact E|exact Hp].
Qed.

(** File discovery globs the pattern [dir/*.png] and then [dir/*.PNG],
    opens no writer, and returns the paths of the two listings reordered:
    every listed path is returned, as often as it is listed, and no other
    path. *)
Theorem find_image_files_permutes_listing (data_dir : string)
    (w : world rng) :
  exists filenames w',
    Find data_dir w = (Ok filenames, w') /\
    trace w' = trace w ++ [Glob (data_dir ++ "/*.png")%string;
                           Glob (data_dir ++ "/*.PNG")%string] /\
    Permutation
      (gfile_glob (data_dir ++ "/*.png")%string
       ++ gfile_glob (data_dir ++ "/*.PNG")%string)
      filenames.
Proof.
  unfold _find_image_files. unfold bind at 1.
  rewrite glob_extensions_result. cbn [map concat app Str.upper].
  set (listing := gfile_glob _ ++ gfile_glob _ ++ []).
  unfold bind, seeded_shuffle. unfold bind, random_seed, random_shuffle.
  match goal with
  | |- context [Loop ?is_ ?x ?u] =>
      destruct (shuffle_loop_ok is_ x u) as (idx & w' & E & Ht & Hp)
  end.
  { rewrite Forall_forall. intros i Hi. apply in_rev in Hi.
    apply in_map_iff in Hi as (k & <- & Hk). apply in_range_bounds in Hk.
    lia. }
  rewrite E. unfold lift.
  assert (Hidx : Forall (fun i => 0 <= i < Z.of_nat (length listing)) idx).
  { eapply Permutation_Forall; [exact Hp|].
    rewrite Forall_forall. intros i Hi. now apply in_range_bounds in Hi. }
  rewrite (gather_ok EmptyString listing idx Hidx).
  eexists. exists w'. split; [reflexivity|]. split.
  - rewrite Ht. reflexivity.
  - replace (gfile_glob (data_dir ++ "/*.png")%string
             ++ gfile_glob (data_dir ++ "/*.PNG")%string)
      with listing by (unfold listing; rewrite app_nil_r; reflexivity).
    rewrite <- (map_nth_range EmptyString listing) at 1.
    now apply Permutation_map.
Qed.

End Discovery.

Lemma find_image_files_permutes_listing_witness :
  let files := ["d/a.png"; "d/b.png"; "d/c.png"]%string in
  exists filenames w',
    _find_image_files (Sample.glob files) unit Sample.seed Sample.below "d"
      Sample.start = (Ok filenames, w') /\
    trace w' = trace Sample.start ++ [Glob "d/*.png"; Glob "d/*.PNG"] /\
    Permutation
      (Sample.glob files "d/*.png" ++ Sample.glob files "d/*.PNG")
      filenames.
Proof.
  apply (find_image_files_permutes_listing
           (Sample.glob ["d/a.png"; "d/b.png"; "d/c.png"]%string) unit
           Sample.seed Sample.below).
  intros s n Hn. simpl. lia.
Defined.

(** ** The whole run *)

Lemma datasets_form (F : flags) (filenames : list string) :
  (0 <= validation_size F)%Q -> (validation_size F < 1)%Q ->
  exists n : nat,
    (n <= length filenames)%nat /\
    datasets F filenames
    = (if (n =? 0)%nat then []
       else [("train"%string, firstn n filenames)])
      ++ (if (length filenames - n =? 0)%nat then []
          else [("validation"%string, skipn n filenames)]).
Proof.
  intros Hv0 Hv1.
  destruct (num_train_files_floor F filenames Hv0 Hv1) as [_ Hbound].
  unfold datasets, num_validation_files.
  set (k := num_train_files F filenames) in *.
  set (L := Z.of_nat (length filenames)) in *.
  exists (Z.to_nat k). split; [unfold L in Hbound; lia|]. f_equal.
  - destruct (Z.eqb_spec k 0) as [E|E], (Nat.eqb_spec (Z.to_nat k) 0);
      simpl; try lia; try reflexivity.
    now rewrite slice_to_firstn by (fold L; lia).
  - destruct (Z.eqb_spec (L - k) 0) as [E|E],
      (Nat.eqb_spec (length filenames - Z.to_nat k) 0);
      simpl; try (unfold L in *; lia); try reflexivity.
    rewrite slice_from_last by (fold L; lia). fold L.
    do 3 f_equal. unfold L in *. lia.
Qed.

(** For a validation fraction [v] with [0 <= v < 1] no empty data set is
    ever handed to the fan-out: a split of size zero is skipped, every split
    that is processed holds at least one file, the splits come in the order
    train, validation, and together they are the file list. *)
Theorem datasets_skip_empty_splits (F : flags) (filenames : list string) :
  (0 <= validation_size F)%Q -> (validation_size F < 1)%Q ->
  Forall (fun d => snd d <> []) (datasets F filenames) /\
  concat (map snd (datasets F filenames)) = filenames /\
  (map fst (datasets F filenames) = []
   \/ map fst (datasets F filenames) = ["train"%string]
   \/ map fst (datasets F filenames) = ["validation"%string]
   \/ map fst (datasets F filenames) = ["train"; "validation"]%string).
Proof.
  intros Hv0 Hv1.
  destruct (datasets_form F filenames Hv0 Hv1) as (n & Hn & ->).
  assert (Hne : forall l : list string, (0 < length l)%nat -> l <> []).
  { intros l Hl ->. simpl in Hl. lia. }
  destruct (Nat.eqb_spec n 0) as [En|En],
    (Nat.eqb_spec (length filenames - n) 0) as [Em|Em]; simpl;
    (split; [|split]).
  - constructor.
  - subst n. rewrite Nat.sub_0_r in Em.
    now apply length_zero_iff_nil in Em.
  - auto.
  - repeat constructor. simpl. apply Hne. rewrite length_skipn. lia.
  - subst n. simpl. now rewrite app_nil_r.
  - auto.
  - repeat constructor. simpl. apply Hne. rewrite length_firstn. lia.
  - rewrite app_nil_r. apply firstn_all2. lia.
  - auto.
  - repeat constructor; simpl; apply Hne;
      rewrite ?length_firstn, ?length_skipn; lia.
  - rewrite app_nil_r. apply firstn_skipn.
  - auto.
Qed.

Lemma datasets_skip_empty_splits_witness :
  let F := Sample.flags_of 2 2 (1 # 2) in
  let filenames := ["f0"%string] in
  Forall (fun d => snd d <> []) (datasets F filenames) /\
  concat (map snd (datasets F filenames)) = filenames /\
  (map fst (datasets F filenames) = []
   \/ map fst (datasets F filenames) = ["train"%string]
   \/ map fst (datasets F filenames) = ["validation"%string]
   \/ map fst (datasets F filenames) = ["train"; "validation"]%string).
Proof.
  apply (datasets_skip_empty_splits (Sample.flags_of 2 2 (1 # 2))
           ["f0"%string]).
  - unfold Qle; simpl; lia.
  - unfold Qlt; simpl; lia.
Defined.

Section Whole.

Variable gfile_glob : string -> list string.
Variable gfile_read : string -> result string.
Variable decode_png : string -> result (Z * Z * Z).
Variable rng : Type.
Variable rng_seed : Z -> rng.
Variable rng_below : rng -> Z -> Z * rng.
Variable F : flags.
Variable img : string -> string * Z * Z * Z.

Local Abbreviation Image := (_process_image gfile_read decode_png).
Local Abbreviation Files :=
  (_process_image_files gfile_read decode_png rng F).
Local Abbreviation Each := (process_each gfile_read decode_png rng F).
Local Abbreviation Loop := (shuffle_loop rng rng_below).
Local Abbreviation Find :=
  (_find_image_files gfile_glob rng rng_seed rng_below).
Local Abbreviation Main :=
  (main gfile_glob gfile_read decode_png rng rng_seed rng_below).





(** An empty directory: when neither pattern lists a file and the
    configuration check passes, [main] returns normally having globbed the
    two patterns and nothing else; no shard file is opened, whatever the
    thread count, the shard count and the validation fraction are. *)
Theorem empty_directory_writes_nothing (w : world rng) :
  gfile_glob (data_directory F ++ "/*.png")%string = [] ->
  gfile_glob (data_directory F ++ "/*.PNG")%string = [] ->
  Py.mod_ (num_shards F) (num_threads F) = Ok 0 ->
  Main F w
  = (Ok tt,
     {| rng_state := rng_seed 12345;
        trace := trace w ++ [Glob (data_directory F ++ "/*.png")%string;
                             Glob (data_directory F ++ "/*.PNG")%string] |}).
Proof.
  intros H1 H2 Hmod.
  assert (E1 : gfile_glob (data_directory F ++ "/*" ++ ".png")%string = [])
    by exact H1.
  assert (E2 : gfile_glob
                 (data_directory F ++ "/*" ++ Str.upper ".png")%string = [])
    by exact H2.
  assert (Hfind : Find (data_directory F) w
                  = (Ok [],
                     {| rng_state := rng_seed 12345;
                        trace := trace w
                                 ++ [Glob (data_directory F ++ "/*.png")%string;
                                     Glob (data_directory F ++ "/*.PNG")%string]
                     |})).
  { unfold _find_image_files. unfold bind at 1.
    rewrite glob_extensions_result. cbn [map concat app].
    rewrite E1, E2. reflexivity. }
  unfold main, bind at 1, lift. rewrite Hmod. simpl.
  unfold _process_datasets, bind. rewrite Hfind. reflexivity.
Qed.

(** A thread count of -1 passes the configuration check with every shard
    count: the batch partitioner then returns no range, no worker is
    started, and [main] returns normally without having opened a file,
    however many files were discovered. *)
Theorem minus_one_thread_writes_nothing (w w1 : world rng)
    (filenames : list string) :
  num_threads F = -1 ->
  Find (data_directory F) w = (Ok filenames, w1) ->
  Py.mod_ (num_shards F) (num_threads F) = Ok 0 /\
  Main F w = (Ok tt, w1).
Proof.
  intros HT Hfind.
  assert (Hmod : Py.mod_ (num_shards F) (num_threads F) = Ok 0).
  { rewrite HT. unfold Py.mod_. simpl. f_equal.
    pose proof (Z.mod_neg_bound (num_shards F) (-1) ltac:(lia)). lia. }
  split; [exact Hmod|].
  unfold main, bind at 1, lift. rewrite Hmod. simpl.
  unfold _process_datasets, bind. rewrite Hfind.
  assert (Hfiles : forall name files (u : world rng),
            Files name files (num_shards F) u = (Ok tt, u)).
  { intros name files u. unfold _process_image_files, bind, lift.
    rewrite HT. reflexivity. }
  generalize (datasets F filenames). intros ds.
  induction ds as [|[name files] ds IH]; [reflexivity|].
  simpl. unfold bind. rewrite Hfiles. exact IH.
Qed.

(** A thread count of -2 or less that divides the shard count also passes
    the configuration check; as soon as there is a split to process,
    [np.linspace] is asked for a negative number of samples and [main] ends
    with a [ValueError], after file discovery and before any file is
    opened. *)
Theorem negative_thread_count_raises (w w1 : world rng)
    (filenames : list string) :
  num_threads F <= -2 ->
  Py.mod_ (num_shards F) (num_threads F) = Ok 0 ->
  Find (data_directory F) w = (Ok filenames, w1) ->
  datasets F filenames <> [] ->
  Main F w = (Raise ValueError, w1).
Proof.
  intros HT Hmod Hfind Hds.
  unfold main, bind at 1, lift. rewrite Hmod. simpl.
  unfold _process_datasets, bind. rewrite Hfind.
  destruct (datasets F filenames) as [|[name files] ds]; [congruence|].
  simpl. unfold bind, _process_image_files, bind, lift.
  unfold batch_ranges, spacing, Np.linspace.
  destruct (Z.ltb_spec (num_threads F + 1) 0) as [_|?]; [|lia].
  reflexivity.
Qed.

End Whole.


Lemma empty_directory_writes_nothing_witness :
  Sample.run [] [] (Sample.flags_of 2 2 (1 # 10))
  = (Ok tt,
     {| rng_state := Sample.seed 12345;
        trace := trace Sample.start ++ [Glob "d/*.png"; Glob "d/*.PNG"] |}).
Proof.
  apply (empty_directory_writes_nothing (Sample.glob []) Sample.read
           (Sample.decode []) unit Sample.seed Sample.below
           (Sample.flags_of 2 2 (1 # 10)) Sample.start); reflexivity.
Defined.

Lemma minus_one_thread_writes_nothing_witness :
  let F := Sample.flags_of 3 (-1) 0 in
  Py.mod_ (num_shards F) (num_threads F) = Ok 0 /\
  Sample.run ["d/a.png"%string] [] F
  = (Ok tt, {| rng_state := tt; trace := [Glob "d/*.png"; Glob "d/*.PNG"] |}).
Proof.
  apply (minus_one_thread_writes_nothing (Sample.glob ["d/a.png"%string])
           Sample.read (Sample.decode []) unit Sample.seed Sample.below
           (Sample.flags_of 3 (-1) 0) Sample.start
           {| rng_state := tt; trace := [Glob "d/*.png"; Glob "d/*.PNG"] |}
           ["d/a.png"%string]); reflexivity.
Defined.

Lemma negative_thread_count_raises_witness :
  Sample.run ["d/a.png"%string] [] (Sample.flags_of 4 (-2) 0)
  = (Raise ValueError,
     {| rng_state := tt; trace := [Glob "d/*.png"; Glob "d/*.PNG"] |}).
Proof.
  apply (negative_thread_count_raises (Sample.glob ["d/a.png"%string])
           Sample.read (Sample.decode []) unit Sample.seed Sample.below
           (Sample.flags_of 4 (-2) 0) Sample.start
           {| rng_state := tt; trace := [Glob "d/*.png"; Glob "d/*.PNG"] |}
           ["d/a.png"%string]).
  - simpl. lia.
  - reflexivity.
  - reflexivity.
  - discriminate.
Defined.

(** ** [_is_png] *)

Lemma prefix_iff (p : string) :
  forall s, String.prefix p s = true <-> exists suf, s = (p ++ suf)%string.
Proof.
  induction p as [|a p IH]; intros s; simpl.
  - destruct s; simpl; (split; [intros _; eexists; reflexivity|auto]).
  - destruct s as [|b s]; simpl.
    + split; [discriminate|]. intros [suf H]. discriminate.
    + destruct (ascii_dec a b) as [->|Hne].
      * split.
        -- intros H. apply IH in H as [suf ->]. now exists suf.
        -- intros [suf [= ->]]. apply IH. now exists suf.
      * split; [discriminate|]. intros [suf H]. congruence.
Qed.

Lemma contains_iff (sub : string) :
  forall s,
    contains sub s = true
    <-> exists pre suf, s = (pre ++ sub ++ suf)%string.
Proof.
  induction s as [|c t IH]; cbn [contains];
    rewrite orb_true_iff, prefix_iff.
  - split.
    + intros [[suf H]|H]; [|discriminate]. now exists EmptyString, suf.
    + intros (pre & suf & H). left. exists suf.
      destruct pre; [exact H|discriminate].
  - rewrite IH. split.
    + intros [[suf H]|(pre & suf & H)].
      * now exists EmptyString, suf.
      * exists (String c pre), suf. simpl. now rewrite H.
    + intros ([|c' pre] & suf & H).
      * left. now exists suf.
      * right. exists pre, suf. simpl in H. congruence.
Qed.

Lemma upper_char_not_p (c : ascii) : Str.upper_char c <> "p"%char.
Proof.
  destruct c as [[] [] [] [] [] [] [] []]; vm_compute; discriminate.
Qed.

Lemma prefix_png_upper (s : string) :
  String.prefix ".png" (Str.upper s) = false.
Proof.
  destruct s as [|a [|b s]]; cbn [Str.upper String.prefix].
  - reflexivity.
  - destruct (ascii_dec "." (Str.upper_char a)); reflexivity.
  - destruct (ascii_dec "." (Str.upper_char a)); [|reflexivity].
    destruct (ascii_dec "p" (Str.upper_char b)) as [E|_]; [|reflexivity].
    symmetry in E. now apply upper_char_not_p in E.
Qed.

(** [_is_png] is a test for the text [.png] anywhere in the path, in
    lower case only: it accepts exactly the paths of the form
    [pre ++ ".png" ++ suf], and so rejects every path written in upper case,
    as the second pattern of file discovery, [*.PNG], lists them. *)
Theorem is_png_is_a_substring_test :
  (forall filename,
     _is_png filename = true
     <-> exists pre suf, filename = (pre ++ ".png" ++ suf)%string) /\
  (forall s, _is_png (Str.upper s) = false).
Proof.
  split.
  - intros filename. apply contains_iff.
  - intros s. unfold _is_png. induction s as [|c t IH]; [reflexivity|].
    change (contains ".png" (Str.upper (String c t)))
      with (String.prefix ".png" (Str.upper (String c t))
            || contains ".png" (Str.upper t)).
    now rewrite prefix_png_upper, IH.
Qed.

(** ** Sizes of the shards of a worker *)

(** A worker balances its shards: with [m] files in its range and
    [n = num_shards / num_threads] shards, every shard range holds either
    [floor(m / n)] or [ceil(m / n)] files, so two shards of one worker never
    differ by more than one file. *)
Theorem worker_shards_balanced (filenames : list string) (t : Z)
    (ranges : list (Z * Z)) (S : Z) :
  well_started filenames t ranges S ->
  let n := S / Z.of_nat (length ranges) in
  let m := snd (nth (Z.to_nat t) ranges (0, 0))
           - fst (nth (Z.to_nat t) ranges (0, 0)) in
  exists srs,
    worker_shard_ranges ranges S t = Ok srs /\
    Forall (fun q => m / n <= snd q - fst q <= (m + n - 1) / n) srs.
Proof.
  intros (HS & Hmod & Ht & Hall) n m.
  destruct (mod_zero_quotient S (Z.of_nat (length ranges))) as [Hn _];
    try lia; try assumption.
  assert (Hr : 0 <= m).
  { rewrite Forall_forall in Hall.
    specialize (Hall (nth (Z.to_nat t) ranges (0, 0))
                  ltac:(apply nth_In; lia)).
    unfold m. lia. }
  rewrite worker_shard_ranges_map; try assumption.
  2: { eapply Forall_impl; [|exact Hall]. simpl. intros q Hq. lia. }
  eexists. split; [reflexivity|].
  rewrite Forall_forall. intros q Hq.
  apply in_map_iff in Hq as (j & <- & Hj). apply in_range_bounds in Hj.
  simpl. fold m. fold n.
  pose proof (interp_step_size m n j ltac:(lia) Hr ltac:(lia)). lia.
Qed.

Lemma worker_shards_balanced_witness :
  let n := 3 / Z.of_nat (length [(0, 10)]) in
  let m := snd (nth (Z.to_nat 0) [(0, 10)] (0, 0))
           - fst (nth (Z.to_nat 0) [(0, 10)] (0, 0)) in
  exists srs,
    worker_shard_ranges [(0, 10)] 3 0 = Ok srs /\
    Forall (fun q => m / n <= snd q - fst q <= (m + n - 1) / n) srs.
Proof.
  apply (worker_shards_balanced
           ["0"; "1"; "2"; "3"; "4"; "5"; "6"; "7"; "8"; "9"]%string
           0 [(0, 10)] 3).
  unfold well_started. simpl. repeat split; try lia.
  repeat constructor; simpl; lia.
Defined.
